(** * DAX_Visualizer: indicator computation and chart layout

    A shallow embedding of [DAX_Visualizer.py]: the two indicators
    ([rsi], [sma]), the loader that attaches the RSI column and drops
    incomplete rows ([load_price_data]), the interval conversion and the two
    plotting functions ([plot_price], [plot_major_holders]).

    Numbers.  A pandas column of dtype float64 is a list of [float64]
    values: a rational, one of the two infinities, or NaN.  Arithmetic on
    the rationals is exact (rounding is not modelled) and the sign of a
    zero is not tracked; a division by zero gives an infinity, or NaN for
    0/0, as numpy does.

    Effects.  A DataFrame is a mutable object: the loader and the plotting
    function change the one object they are handed.  Frames live in a heap
    indexed by references, and the functions that mutate are written in a
    state-and-exception monad over that heap. *)

From Stdlib Require Import ZArith QArith Qabs Lqa Lia Bool Ascii String.
From Stdlib Require Import DecimalString Decimal DecimalPos DecimalZ.
From stdpp Require Import gmap strings list.

Open Scope Q_scope.

(** ** Exceptions *)

Inductive exn := ValueError | KeyError | TypeError.

Inductive result (A : Type) :=
| Ok (a : A)
| Raise (e : exn).
Arguments Ok {A} a.
Arguments Raise {A} e.

Definition result_bind {A B} (r : result A) (k : A -> result B) : result B :=
  match r with
  | Ok a => k a
  | Raise e => Raise e
  end.

Notation "'try' x <- r ; k" := (result_bind r (fun x => k))
  (at level 10, x name, r at level 100, k at level 200).

(** ** float64 *)

Inductive float64 :=
| Fin (q : Q)
| PInf
| NInf
| NaN.

Definition isna (x : float64) : bool :=
  match x with NaN => true | _ => false end.

Definition notna (x : float64) : bool := negb (isna x).

Definition fneg (x : float64) : float64 :=
  match x with
  | Fin a => Fin (- a)
  | PInf => NInf
  | NInf => PInf
  | NaN => NaN
  end.

Definition fadd (x y : float64) : float64 :=
  match x, y with
  | NaN, _ | _, NaN => NaN
  | Fin a, Fin b => Fin (a + b)
  | PInf, NInf | NInf, PInf => NaN
  | PInf, _ | _, PInf => PInf
  | NInf, _ | _, NInf => NInf
  end.

Definition fsub (x y : float64) : float64 := fadd x (fneg y).

(** The infinity whose sign is the sign of [a] times the sign of [inf];
    [0 * inf] is NaN. *)
Definition scale_inf (a : Q) (inf : float64) : float64 :=
  match a ?= 0 with
  | Gt => inf
  | Lt => fneg inf
  | Eq => NaN
  end.

Definition fmul (x y : float64) : float64 :=
  match x, y with
  | NaN, _ | _, NaN => NaN
  | Fin a, Fin b => Fin (a * b)
  | Fin a, PInf | PInf, Fin a => scale_inf a PInf
  | Fin a, NInf | NInf, Fin a => scale_inf a NInf
  | PInf, PInf | NInf, NInf => PInf
  | PInf, NInf | NInf, PInf => NInf
  end.

Definition fdiv (x y : float64) : float64 :=
  match x, y with
  | NaN, _ | _, NaN => NaN
  | Fin a, Fin b =>
      match b ?= 0 with
      | Eq => scale_inf a PInf
      | _ => Fin (a / b)
      end
  | Fin _, PInf | Fin _, NInf => Fin 0
  | PInf, Fin b => match b ?= 0 with Lt => NInf | _ => PInf end
  | NInf, Fin b => match b ?= 0 with Lt => PInf | _ => NInf end
  | PInf, PInf | PInf, NInf | NInf, PInf | NInf, NInf => NaN
  end.

(** [x < y] on floats: false as soon as one side is NaN. *)
Definition fltb (x y : float64) : bool :=
  match x, y with
  | NaN, _ | _, NaN => false
  | Fin a, Fin b => match a ?= b with Lt => true | _ => false end
  | Fin _, PInf | NInf, Fin _ | NInf, PInf => true
  | Fin _, NInf | PInf, _ | NInf, NInf => false
  end.

(** [x == y] on floats: NaN is equal to nothing. *)
Definition feqb (x y : float64) : bool :=
  match x, y with
  | Fin a, Fin b => Qeq_bool a b
  | PInf, PInf | NInf, NInf => true
  | _, _ => false
  end.

(** The same float: the same special value, or equal rationals. *)
Definition feq (x y : float64) : Prop :=
  match x, y with
  | Fin a, Fin b => a == b
  | PInf, PInf | NInf, NInf | NaN, NaN => True
  | _, _ => False
  end.

Definition of_Z (z : Z) : float64 := Fin (inject_Z z).

(** ** Series operations used by the indicators *)

Abbreviation Series := (list float64).

(** [Series.diff()]: no value in the first row, then [s[t] - s[t-1]]. *)
Definition diff (s : Series) : Series :=
  match s with
  | [] => []
  | _ :: rest => NaN :: zip_with fsub rest s
  end.

(** [Series.clip(lower=lo)] and [Series.clip(upper=hi)]; NaN is kept. *)
Definition clip_lower (lo : float64) (s : Series) : Series :=
  map (fun x => if fltb x lo then lo else x) s.

Definition clip_upper (hi : float64) (s : Series) : Series :=
  map (fun x => if fltb hi x then hi else x) s.

(** pandas' window operations, [rolling] and [ewm], read the column they
    work on through one preparation step, which turns every infinite value
    into a missing one. *)
Definition isinf (x : float64) : bool :=
  match x with PInf | NInf => true | _ => false end.

Definition prep_values (vals : Series) : Series :=
  map (fun x => if isinf x then NaN else x) vals.

(** [Series.ewm(com=com, adjust=False).mean()], with pandas' defaults
    [ignore_na=False] and [min_periods=0]: one pass over the prepared
    values.  The state of the pass is the running average [weighted] (NaN
    until the first observation) and the weight [old_wt] the average has
    accumulated over the missing values since the last observation. *)
Fixpoint ewm_loop (alpha : Q) (weighted : float64) (old_wt : Q) (vals : Series)
  : Series :=
  match vals with
  | [] => []
  | cur :: rest =>
      if isna weighted then cur :: ewm_loop alpha cur old_wt rest
      else
        let old_wt' := old_wt * (1 - alpha) in
        if isna cur then weighted :: ewm_loop alpha weighted old_wt' rest
        else
          let weighted' :=
            if feqb weighted cur then weighted
            else fdiv (fadd (fmul (Fin old_wt') weighted) (fmul (Fin alpha) cur))
                      (Fin (old_wt' + alpha)) in
          weighted' :: ewm_loop alpha weighted' 1 rest
  end.

Definition ewm_mean (com : Z) (vals : Series) : result Series :=
  if (com <? 0)%Z then Raise ValueError
  else Ok (ewm_loop (1 / (1 + inject_Z com)) NaN 1 (prep_values vals)).

(** [Series.rolling(window).mean()], with [min_periods] defaulting to the
    window: on the prepared values, the mean of the observations among the
    last [window] rows, when there are at least [min_periods] of them.  Each
    window is summed afresh; the running sum pandas carries from one window
    to the next gives the same value in exact arithmetic. *)
Definition fsum (l : Series) : float64 := fold_left fadd l (Fin 0).

Definition rolling_window (w : nat) (vals : Series) (i : nat) : Series :=
  take (S i - (S i - w)) (drop (S i - w) vals).

Definition rolling_mean_at (w minp : nat) (vals : Series) (i : nat) : float64 :=
  let obs := List.filter notna (rolling_window w vals i) in
  let nobs := length obs in
  if (minp <=? nobs)%nat && (0 <? nobs)%nat
  then fdiv (fsum obs) (of_Z (Z.of_nat nobs))
  else NaN.

Definition rolling_mean (window : Z) (vals : Series) : result Series :=
  if (window <? 0)%Z then Raise ValueError
  else
    let w := Z.to_nat window in
    Ok (map (rolling_mean_at w w (prep_values vals)) (seq 0 (length vals))).

(** ** The indicators *)

(** The intermediate columns of [rsi], under the names the source binds
    them to. *)
Definition rsi_delta (series : Series) : Series := diff series.

Definition rsi_up (series : Series) : Series :=
  clip_lower (of_Z 0) (rsi_delta series).

Definition rsi_down (series : Series) : Series :=
  map (fmul (of_Z (-1))) (clip_upper (of_Z 0) (rsi_delta series)).

Definition rsi_ema_up (series : Series) (periods : Z) : result Series :=
  ewm_mean (periods - 1) (rsi_up series).

Definition rsi_ema_down (series : Series) (periods : Z) : result Series :=
  ewm_mean (periods - 1) (rsi_down series).

Definition rsi_value (rs : float64) : float64 :=
  fsub (of_Z 100) (fdiv (of_Z 100) (fadd (of_Z 1) rs)).

Definition rsi (series : Series) (periods : Z) : result Series :=
  try ema_up <- rsi_ema_up series periods;
  try ema_down <- rsi_ema_down series periods;
  let rs := zip_with fdiv ema_up ema_down in
  Ok (map rsi_value rs).

Definition sma (series : Series) (period : Z) : result Series :=
  rolling_mean period series.

(** ** DataFrames *)

(** A column holds floats, or timestamps (the [Date] column that
    [plot_price] copies from the index). *)
Inductive column :=
| FloatCol (vals : Series)
| DateCol (vals : list Z).

Record DataFrame := mkDataFrame {
  df_index : list Z;
  df_columns : list (string * column)
}.

Fixpoint df_lookup (name : string) (cols : list (string * column))
  : option column :=
  match cols with
  | [] => None
  | (n, c) :: rest => if String.eqb n name then Some c else df_lookup name rest
  end.

(** [df[name] = col]: an existing column is replaced where it stands, a new
    one is added last. *)
Fixpoint df_assign (name : string) (col : column) (cols : list (string * column))
  : list (string * column) :=
  match cols with
  | [] => [(name, col)]
  | (n, c) :: rest =>
      if String.eqb n name then (n, col) :: rest
      else (n, c) :: df_assign name col rest
  end.

Definition df_set (name : string) (col : column) (df : DataFrame) : DataFrame :=
  mkDataFrame (df_index df) (df_assign name col (df_columns df)).

(** [df[name]] read as a float column. *)
Definition df_floats (name : string) (df : DataFrame) : result Series :=
  match df_lookup name (df_columns df) with
  | Some (FloatCol v) => Ok v
  | Some (DateCol _) => Raise TypeError
  | None => Raise KeyError
  end.

(** Row [i] of a column holds a value. *)
Definition col_notna (c : column) (i : nat) : bool :=
  match c with
  | FloatCol v => match v !! i with Some x => notna x | None => true end
  | DateCol _ => true
  end.

Definition row_complete (cols : list (string * column)) (i : nat) : bool :=
  forallb (fun nc => col_notna (snd nc) i) cols.

(** The rows of [l] whose mask bit is set. *)
Fixpoint select {A} (mask : list bool) (l : list A) : list A :=
  match mask, l with
  | b :: mask', x :: l' => if b then x :: select mask' l' else select mask' l'
  | _, _ => []
  end.

Definition col_select (mask : list bool) (c : column) : column :=
  match c with
  | FloatCol v => FloatCol (select mask v)
  | DateCol v => DateCol (select mask v)
  end.

Definition dropna_mask (df : DataFrame) : list bool :=
  map (row_complete (df_columns df)) (seq 0 (length (df_index df))).

(** [df.dropna()]: the rows with a missing value in any column go. *)
Definition dropna (df : DataFrame) : DataFrame :=
  let mask := dropna_mask df in
  mkDataFrame (select mask (df_index df))
              (map (fun nc => (fst nc, col_select mask (snd nc))) (df_columns df)).

(** ** The heap of frames and the monad of the mutating functions *)

Abbreviation ref := nat (only parsing).

Definition M (A : Type) : Type := gmap ref DataFrame -> result (A * gmap ref DataFrame).

Definition ret {A} (a : A) : M A := fun h => Ok (a, h).

Definition bind {A B} (m : M A) (k : A -> M B) : M B :=
  fun h => match m h with
           | Ok (a, h') => k a h'
           | Raise e => Raise e
           end.

Notation "x <- m ;; k" := (bind m (fun x => k))
  (at level 100, m at next level, right associativity).
Notation "m ;; k" := (bind m (fun _ => k))
  (at level 100, right associativity).

Definition lift {A} (r : result A) : M A :=
  fun h => match r with Ok a => Ok (a, h) | Raise e => Raise e end.

(** A new object, at a reference the heap does not use yet. *)
Definition alloc (df : DataFrame) : M ref :=
  fun h => let r := fresh (dom h) in Ok (r, <[r := df]> h).

Definition load (r : ref) : M DataFrame :=
  fun h => match h !! r with
           | Some df => Ok (df, h)
           | None => Raise KeyError
           end.

(** An in-place update of the object at [r]. *)
Definition modify (r : ref) (f : DataFrame -> DataFrame) : M unit :=
  fun h => match h !! r with
           | Some df => Ok (tt, <[r := f df]> h)
           | None => Raise KeyError
           end.

(** ** The loader *)

(** One row of what [yf.download] returns. *)
Record Bar := mkBar {
  bar_date : Z;
  bar_open : float64;
  bar_high : float64;
  bar_low : float64;
  bar_close : float64;
  bar_adj_close : float64;
  bar_volume : float64
}.

(** The frame [yf.download] builds from the rows it fetched. *)
Definition yf_frame (bars : list Bar) : DataFrame :=
  mkDataFrame (map bar_date bars)
    [ ("Open"%string, FloatCol (map bar_open bars));
      ("High"%string, FloatCol (map bar_high bars));
      ("Low"%string, FloatCol (map bar_low bars));
      ("Close"%string, FloatCol (map bar_close bars));
      ("Adj Close"%string, FloatCol (map bar_adj_close bars));
      ("Volume"%string, FloatCol (map bar_volume bars)) ].

(** [str(n)] for an integer. *)
Definition str_of_Z (n : Z) : string := NilZero.string_of_int (Z.to_int n).

(** [f"RSI ({rsi_periods})"] *)
Definition rsi_column (rsi_periods : Z) : string :=
  ("RSI (" +:+ str_of_Z rsi_periods +:+ ")")%string.

(** [load_price_data]; [fetched] stands for the rows [yf.download] returns
    for the ticker, dates and interval asked for, and [rsi_periods] is the
    global the function reads. *)
Definition load_price_data (rsi_periods : Z) (fetched : list Bar) : M ref :=
  data <- alloc (yf_frame fetched) ;;
  df <- load data ;;
  adj_close <- lift (df_floats "Adj Close" df) ;;
  rsi_values <- lift (rsi adj_close rsi_periods) ;;
  modify data (df_set (rsi_column rsi_periods) (FloatCol rsi_values)) ;;
  modify data dropna ;;
  ret data.

(** ** Interval conversion *)

Definition convert_interval (interval : string) : string :=
  let interval := if String.eqb interval "1 day" then "1d"%string else interval in
  let interval := if String.eqb interval "1 week" then "1wk"%string else interval in
  let interval := if String.eqb interval "1 month" then "1mo"%string else interval in
  interval.

(** ** Figures *)

Record Line2D := mkLine {
  line_x : list Z;
  line_y : Series;
  line_color : string;
  line_label : option string
}.

Record HLine := mkHLine {
  hline_y : Z;
  hline_color : string
}.

Record BarContainer := mkBars {
  bars_x : list Z;
  bars_height : Series;
  bars_color : string
}.

Record Pie := mkPie {
  pie_x : list float64;
  pie_colors : list string;
  pie_labels : list (option string);
  pie_counterclock : bool;
  pie_startangle : Z
}.

(** An axes placed by [plt.subplot(nrows, ncols, (first, last))], and what was
    drawn on it, in drawing order. *)
Record Axes := mkAxes {
  ax_nrows : Z;
  ax_ncols : Z;
  ax_first : Z;
  ax_last : Z;
  ax_sharex : bool;
  ax_lines : list Line2D;
  ax_hlines : list HLine;
  ax_bars : list BarContainer;
  ax_pies : list Pie;
  ax_title : option string;
  ax_yticks : option (list Z);
  ax_legend : bool
}.

Abbreviation Figure := (list Axes).

(** Grid cells are numbered from 1, row by row. *)
Definition ax_row_first (a : Axes) : Z := ((ax_first a - 1) / ax_ncols a + 1)%Z.
Definition ax_row_last (a : Axes) : Z := ((ax_last a - 1) / ax_ncols a + 1)%Z.
Definition ax_col_first (a : Axes) : Z := ((ax_first a - 1) mod ax_ncols a + 1)%Z.
Definition ax_col_last (a : Axes) : Z := ((ax_last a - 1) mod ax_ncols a + 1)%Z.
Definition ax_row_count (a : Axes) : Z := (ax_row_last a - ax_row_first a + 1)%Z.

Definition subplot (nrows ncols first last : Z) (sharex : bool) : result Axes :=
  if ((1 <=? first) && (first <=? last) && (last <=? nrows * ncols))%Z
  then Ok (mkAxes nrows ncols first last sharex [] [] [] [] None None false)
  else Raise ValueError.

Definition ax_plot (x : list Z) (y : Series) (color : string)
    (label : option string) (a : Axes) : result Axes :=
  if (length x =? length y)%nat
  then Ok (mkAxes (ax_nrows a) (ax_ncols a) (ax_first a) (ax_last a) (ax_sharex a)
             (ax_lines a ++ [mkLine x y color label]) (ax_hlines a) (ax_bars a)
             (ax_pies a) (ax_title a) (ax_yticks a) (ax_legend a))
  else Raise ValueError.

Definition ax_axhline (y : Z) (color : string) (a : Axes) : Axes :=
  mkAxes (ax_nrows a) (ax_ncols a) (ax_first a) (ax_last a) (ax_sharex a)
    (ax_lines a) (ax_hlines a ++ [mkHLine y color]) (ax_bars a)
    (ax_pies a) (ax_title a) (ax_yticks a) (ax_legend a).

Definition ax_bar (x : list Z) (height : Series) (color : string) (a : Axes)
  : result Axes :=
  if (length x =? length height)%nat
  then Ok (mkAxes (ax_nrows a) (ax_ncols a) (ax_first a) (ax_last a) (ax_sharex a)
             (ax_lines a) (ax_hlines a) (ax_bars a ++ [mkBars x height color])
             (ax_pies a) (ax_title a) (ax_yticks a) (ax_legend a))
  else Raise ValueError.

(** [ax.pie]: matplotlib refuses a negative wedge size, and cannot draw a
    wedge whose size is not a number. *)
Definition ax_pie (x : list float64) (colors : list string)
    (labels : list (option string)) (counterclock : bool) (startangle : Z)
    (a : Axes) : result Axes :=
  if existsb (fun v => fltb v (of_Z 0) || isna v) x then Raise ValueError
  else Ok (mkAxes (ax_nrows a) (ax_ncols a) (ax_first a) (ax_last a) (ax_sharex a)
             (ax_lines a) (ax_hlines a) (ax_bars a)
             (ax_pies a ++ [mkPie x colors labels counterclock startangle])
             (ax_title a) (ax_yticks a) (ax_legend a)).

Definition ax_set_title (t : string) (a : Axes) : Axes :=
  mkAxes (ax_nrows a) (ax_ncols a) (ax_first a) (ax_last a) (ax_sharex a)
    (ax_lines a) (ax_hlines a) (ax_bars a) (ax_pies a) (Some t) (ax_yticks a)
    (ax_legend a).

Definition ax_set_yticks (ticks : list Z) (a : Axes) : Axes :=
  mkAxes (ax_nrows a) (ax_ncols a) (ax_first a) (ax_last a) (ax_sharex a)
    (ax_lines a) (ax_hlines a) (ax_bars a) (ax_pies a) (ax_title a) (Some ticks)
    (ax_legend a).

Definition ax_set_legend (a : Axes) : Axes :=
  mkAxes (ax_nrows a) (ax_ncols a) (ax_first a) (ax_last a) (ax_sharex a)
    (ax_lines a) (ax_hlines a) (ax_bars a) (ax_pies a) (ax_title a) (ax_yticks a)
    true.

(** ** The price chart *)

Definition SMA_1_COLOR : string := "#ffd700".
Definition SMA_2_COLOR : string := "#2069e0".
Definition RSI_30_70_COLOR : string := "#00ff00".
Definition RSI_15_85_COLOR : string := "#ffaa00".
Definition RSI_0_100_COLOR : string := "#ff0000".

(** The globals the sidebar sets and [plot_price] reads. *)
Record Config := mkConfig {
  sma_1 : bool;
  sma_1_periods : Z;
  sma_2 : bool;
  sma_2_periods : Z;
  rsi_1 : bool;
  rsi_periods : Z;
  volume : bool
}.

(** [df.index] and [df[name]], read from the object behind the reference. *)
Definition index_of (df : ref) : M (list Z) :=
  d <- load df ;; ret (df_index d).

Definition floats_of (df : ref) (name : string) : M Series :=
  d <- load df ;; lift (df_floats name d).

(** [f"SMA({periods})"] *)
Definition sma_label (periods : Z) : string :=
  ("SMA(" +:+ str_of_Z periods +:+ ")")%string.

Definition plot_sma (df : ref) (enabled : bool) (periods : Z) (color : string)
    (ax1 : Axes) : M Axes :=
  if enabled then
    adj_close <- floats_of df "Adj Close" ;;
    sma_plot <- lift (sma adj_close periods) ;;
    x <- index_of df ;;
    lift (ax_plot x sma_plot color (Some (sma_label periods)) ax1)
  else ret ax1.

Definition plot_rsi_panel (cfg : Config) (df : ref) : M Figure :=
  if rsi_1 cfg then
    ax2 <- lift (subplot 14 1 9 10 true) ;;
    x <- index_of df ;;
    y <- floats_of df (rsi_column (rsi_periods cfg)) ;;
    ax2 <- lift (ax_plot x y "lightgray" None ax2) ;;
    let ax2 := ax_set_title (rsi_column (rsi_periods cfg)) ax2 in
    let ax2 := ax_set_yticks [0; 30; 70; 100]%Z ax2 in
    let ax2 := ax_axhline 1 RSI_0_100_COLOR ax2 in
    let ax2 := ax_axhline 99 RSI_0_100_COLOR ax2 in
    let ax2 := ax_axhline 15 RSI_15_85_COLOR ax2 in
    let ax2 := ax_axhline 85 RSI_15_85_COLOR ax2 in
    let ax2 := ax_axhline 30 RSI_30_70_COLOR ax2 in
    let ax2 := ax_axhline 70 RSI_30_70_COLOR ax2 in
    ret [ax2]
  else ret [].

Definition plot_volume_panel (cfg : Config) (df : ref) : M Figure :=
  if volume cfg then
    ax3 <- lift (if rsi_1 cfg then subplot 14 1 12 14 true
                 else subplot 14 1 9 10 true) ;;
    x <- index_of df ;;
    height <- floats_of df "Volume" ;;
    ax3 <- lift (ax_bar x height "white" ax3) ;;
    ret [ax_set_title "Volume" ax3]
  else ret [].

(** [plot_price]: the figure it draws, as the list of its axes in the order
    they are created.  [df] is the very object [price_data] names. *)
Definition plot_price (cfg : Config) (price_data : ref) : M Figure :=
  let df := price_data in
  modify df (fun d => df_set "Date" (DateCol (df_index d)) d) ;;
  ax1 <- lift (subplot 14 1 1 7 false) ;;
  x <- index_of df ;;
  adj_close <- floats_of df "Adj Close" ;;
  ax1 <- lift (ax_plot x adj_close "lightgray" (Some "Adj. Close"%string) ax1) ;;
  ax1 <- plot_sma df (sma_1 cfg) (sma_1_periods cfg) SMA_1_COLOR ax1 ;;
  ax1 <- plot_sma df (sma_2 cfg) (sma_2_periods cfg) SMA_2_COLOR ax1 ;;
  let ax1 := ax_set_legend ax1 in
  rsi_axes <- plot_rsi_panel cfg df ;;
  volume_axes <- plot_volume_panel cfg df ;;
  ret (ax1 :: rsi_axes ++ volume_axes).

(** One run of the script's price part: load, then plot. *)
Definition render_price (cfg : Config) (fetched : list Bar) : M (ref * Figure) :=
  price_data <- load_price_data (rsi_periods cfg) fetched ;;
  fig <- plot_price cfg price_data ;;
  ret (price_data, fig).

(** ** The ownership pies *)

Definition is_digit (c : ascii) : bool :=
  (48 <=? nat_of_ascii c)%nat && (nat_of_ascii c <=? 57)%nat.

Definition digit_value (c : ascii) : Z := Z.of_nat (nat_of_ascii c - 48).

Definition is_space (c : ascii) : bool :=
  let n := nat_of_ascii c in
  (n =? 32)%nat || ((9 <=? n)%nat && (n <=? 13)%nat).

Definition lower (c : ascii) : ascii :=
  let n := nat_of_ascii c in
  if (65 <=? n)%nat && (n <=? 90)%nat then ascii_of_nat (n + 32) else c.

Fixpoint lstrip (l : list ascii) : list ascii :=
  match l with
  | c :: rest => if is_space c then lstrip rest else l
  | [] => []
  end.

Definition strip (l : list ascii) : list ascii :=
  rev (lstrip (rev (lstrip l))).

(** The longest prefix of digits, single underscores allowed between two
    digits, and what follows it. *)
Fixpoint span_digits (l : list ascii) : list ascii * list ascii :=
  match l with
  | d :: rest =>
      if is_digit d then
        match rest with
        | "_"%char :: rest' =>
            match rest' with
            | d' :: _ =>
                if is_digit d' then
                  let (ds, r) := span_digits rest' in (d :: ds, r)
                else ([d], rest)
            | [] => ([d], rest)
            end
        | _ => let (ds, r) := span_digits rest in (d :: ds, r)
        end
      else ([], l)
  | [] => ([], [])
  end.

Definition digits_value (ds : list ascii) : Z :=
  fold_left (fun acc d => (10 * acc + digit_value d)%Z) ds 0%Z.

(** [m * 10^e] *)
Definition decimal_value (m e : Z) : Q :=
  if (0 <=? e)%Z then inject_Z (m * 10 ^ e) else m # Z.to_pos (10 ^ (- e)).

Definition split_sign (l : list ascii) : bool * list ascii :=
  match l with
  | "-"%char :: rest => (true, rest)
  | "+"%char :: rest => (false, rest)
  | _ => (false, l)
  end.

(** The exponent part of a literal: empty, or [e] or [E], a sign, digits. *)
Definition parse_exponent (l : list ascii) : option Z :=
  match l with
  | [] => Some 0%Z
  | c :: rest =>
      if Ascii.eqb (lower c) "e" then
        let (neg, rest) := split_sign rest in
        match span_digits rest with
        | ([], _) => None
        | (ds, []) => Some (if neg then - digits_value ds else digits_value ds)%Z
        | (_, _ :: _) => None
        end
      else None
  end.

(** Python's [float(s)] on a string: surrounding blanks stripped, a sign,
    then [inf], [infinity], [nan] in any case, or a decimal literal.  The
    value of a literal is exact, not rounded to a double. *)
Definition python_float (s : string) : result float64 :=
  let (neg, body) := split_sign (strip (list_ascii_of_string s)) in
  let word := string_of_list_ascii (map lower body) in
  if String.eqb word "inf" || String.eqb word "infinity"
  then Ok (if neg then NInf else PInf)
  else if String.eqb word "nan" then Ok NaN
  else
    let (int_part, rest) := span_digits body in
    let (frac_part, rest) :=
      match rest with
      | "."%char :: rest' => span_digits rest'
      | _ => ([], rest)
      end in
    match int_part ++ frac_part, parse_exponent rest with
    | [], _ | _, None => Raise ValueError
    | ds, Some e =>
        let m := digits_value ds in
        Ok (Fin (decimal_value (if neg then - m else m)
                               (e - Z.of_nat (length frac_part))))
    end.

(** [s[:-1]] *)
Definition drop_last (s : string) : string :=
  string_of_list_ascii (removelast (list_ascii_of_string s)).

(** [major_holders[0][i]]: row [i] of the column labelled 0. *)
Definition holders_cell (major_holders : list (list string)) (i : nat)
  : result string :=
  match major_holders !! 0%nat with
  | Some col => match col !! i with Some s => Ok s | None => Raise KeyError end
  | None => Raise KeyError
  end.

Definition holder_pie (label : string) (ptc : float64) (column : Z) (title : string)
  : result Axes :=
  try ax <- subplot 1 5 column column false;
  try ax <- ax_pie [ptc; fsub (of_Z 100) ptc] ["black"; "white"]%string
                   [Some label; None] false 90 ax;
  Ok (ax_set_title title ax).

(** [plot_major_holders]; [major_holders] is the frame of strings Yahoo
    returns, given by its columns. *)
Definition plot_major_holders (major_holders : list (list string)) : result Figure :=
  try s0 <- holders_cell major_holders 0;
  try ptc_insiders <- python_float (drop_last s0);
  try s1 <- holders_cell major_holders 1;
  try ptc_shares_institutions <- python_float (drop_last s1);
  try s2 <- holders_cell major_holders 2;
  try ptc_float_institutions <- python_float (drop_last s2);
  try ax1 <- holder_pie s0 ptc_insiders 1 "% of Shares Held by Insiders";
  try ax2 <- holder_pie s1 ptc_shares_institutions 3
               "% of Shares Held by Institutions";
  try ax3 <- holder_pie s2 ptc_float_institutions 5
               "% of Float Held by Institutions";
  Ok [ax1; ax2; ax3].

(** ** Auxiliary definitions for the statements *)

(** The columns [rsi] computes when it does not raise. *)
Definition ema_up_of (s : Series) (p : Z) : Series :=
  ewm_loop (1 / (1 + inject_Z (p - 1))) NaN 1 (prep_values (rsi_up s)).

Definition ema_down_of (s : Series) (p : Z) : Series :=
  ewm_loop (1 / (1 + inject_Z (p - 1))) NaN 1 (prep_values (rsi_down s)).

Definition rsi_of (s : Series) (p : Z) : Series :=
  map rsi_value (zip_with fdiv (ema_up_of s p) (ema_down_of s p)).

(** The arithmetic mean of a list of values, as the specification words it:
    their sum over their number. *)
Definition arithmetic_mean (l : Series) : float64 :=
  fdiv (fsum l) (of_Z (Z.of_nat (length l))).

(** A float that is not negative: a rational [>= 0], [+inf], or no value. *)
Definition nonneg_or_nan (x : float64) : Prop :=
  match x with
  | Fin q => 0 <= q
  | PInf | NaN => True
  | NInf => False
  end.

(** A float that is strictly positive. *)
Definition positive (x : float64) : Prop :=
  match x with
  | Fin q => 0 < q
  | PInf => True
  | NInf | NaN => False
  end.

(** An oscillator value as the specification bounds it: absent, or a
    rational in [0, 100]. *)
Definition in_0_100_or_nan (x : float64) : Prop :=
  match x with
  | Fin v => 0 <= v <= 100
  | NaN => True
  | PInf | NInf => False
  end.

(** Every value of a fetched row is present. *)
Definition bar_complete (b : Bar) : bool :=
  notna (bar_open b) && notna (bar_high b) && notna (bar_low b) &&
  notna (bar_close b) && notna (bar_adj_close b) && notna (bar_volume b).

(** The rows [load_price_data] keeps: those fetched complete and with an
    RSI value. *)
Definition kept_rows (p : Z) (fetched : list Bar) : list bool :=
  zip_with andb (map bar_complete fetched)
                (map notna (rsi_of (map bar_adj_close fetched) p)).

(** The frame [load_price_data] leaves behind its reference. *)
Definition loaded_frame (p : Z) (fetched : list Bar) : DataFrame :=
  let keep := kept_rows p fetched in
  mkDataFrame (select keep (map bar_date fetched))
    [ ("Open"%string, FloatCol (select keep (map bar_open fetched)));
      ("High"%string, FloatCol (select keep (map bar_high fetched)));
      ("Low"%string, FloatCol (select keep (map bar_low fetched)));
      ("Close"%string, FloatCol (select keep (map bar_close fetched)));
      ("Adj Close"%string, FloatCol (select keep (map bar_adj_close fetched)));
      ("Volume"%string, FloatCol (select keep (map bar_volume fetched)));
      (rsi_column p,
       FloatCol (select keep (rsi_of (map bar_adj_close fetched) p))) ].

(** The figure [plot_price] draws, as a function of what it reads: the
    index [x], and the columns [Adj Close], [RSI (n)] and [Volume]. *)
Definition sma_lines (enabled : bool) (periods : Z) (color : string)
    (x : list Z) (adj_close : Series) : list Line2D :=
  if enabled then
    [mkLine x
       (map (rolling_mean_at (Z.to_nat periods) (Z.to_nat periods)
                             (prep_values adj_close))
            (seq 0 (length adj_close)))
       color (Some (sma_label periods))]
  else [].

Definition price_panel (cfg : Config) (x : list Z) (adj_close : Series) : Axes :=
  mkAxes 14 1 1 7 false
    (mkLine x adj_close "lightgray" (Some "Adj. Close"%string)
       :: sma_lines (sma_1 cfg) (sma_1_periods cfg) SMA_1_COLOR x adj_close
       ++ sma_lines (sma_2 cfg) (sma_2_periods cfg) SMA_2_COLOR x adj_close)
    [] [] [] None None true.

Definition rsi_panel (cfg : Config) (x : list Z) (rs : Series) : Figure :=
  if rsi_1 cfg then
    [mkAxes 14 1 9 10 true [mkLine x rs "lightgray" None]
       [mkHLine 1 RSI_0_100_COLOR; mkHLine 99 RSI_0_100_COLOR;
        mkHLine 15 RSI_15_85_COLOR; mkHLine 85 RSI_15_85_COLOR;
        mkHLine 30 RSI_30_70_COLOR; mkHLine 70 RSI_30_70_COLOR]
       [] [] (Some (rsi_column (rsi_periods cfg))) (Some [0; 30; 70; 100]%Z) false]
  else [].

Definition volume_panel (cfg : Config) (x : list Z) (vol : Series) : Figure :=
  if volume cfg then
    [mkAxes 14 1 (if rsi_1 cfg then 12 else 9) (if rsi_1 cfg then 14 else 10) true
       [] [] [mkBars x vol "white"] [] (Some "Volume"%string) None false]
  else [].

Definition price_figure (cfg : Config) (x : list Z) (adj_close rs vol : Series)
  : Figure :=
  price_panel cfg x adj_close :: rsi_panel cfg x rs ++ volume_panel cfg x vol.

(** A frame [plot_price] can draw: the three columns it reads are float
    columns as long as the index. *)
Definition chartable (p : Z) (d : DataFrame) (adj_close rs vol : Series) : Prop :=
  df_floats "Adj Close" d = Ok adj_close /\
  df_floats (rsi_column p) d = Ok rs /\
  df_floats "Volume" d = Ok vol /\
  length adj_close = length (df_index d) /\
  length rs = length (df_index d) /\
  length vol = length (df_index d).

(** The window lengths the sidebar's sliders allow. *)
Definition slider_ranges (cfg : Config) : Prop :=
  (5 <= sma_1_periods cfg <= 200)%Z /\
  (5 <= sma_2_periods cfg <= 200)%Z /\
  (5 <= rsi_periods cfg <= 50)%Z.

(** What a panel shows, told from what is drawn on it: bars make a volume
    panel, horizontal reference lines an oscillator panel, and labelled
    lines under a legend the price panel. *)
Inductive panel := PricePanel | OscillatorPanel | VolumePanel.

Definition panel_kind (a : Axes) : option panel :=
  match ax_bars a, ax_hlines a, ax_lines a with
  | _ :: _, _, _ => Some VolumePanel
  | [], _ :: _, _ => Some OscillatorPanel
  | [], [], _ :: _ => if ax_legend a then Some PricePanel else None
  | [], [], [] => None
  end.

(** Each panel of the figure ends above the row where the next begins. *)
Definition stacked_top_down (fig : Figure) : Prop :=
  forall i a b, fig !! i = Some a -> fig !! S i = Some b ->
    (ax_row_last a < ax_row_first b)%Z.

(** The rows a panel spans, first and last. *)
Definition ax_rows (a : Axes) : Z * Z := (ax_row_first a, ax_row_last a).

(** The script's heap before anything is loaded. *)
Definition empty_heap : gmap nat DataFrame := ∅.

(** The figure of a run from the empty heap, if it succeeds. *)
Definition figure_of_run (cfg : Config) (fetched : list Bar) : option Figure :=
  match render_price cfg fetched empty_heap with
  | Ok (_, fig, _) => Some fig
  | Raise _ => None
  end.

(** The frame a run from the empty heap leaves behind [price_data]. *)
Definition frame_of_run (cfg : Config) (fetched : list Bar) : option DataFrame :=
  match render_price cfg fetched empty_heap with
  | Ok (price_data, _, h) => h !! price_data
  | Raise _ => None
  end.

(** A fetched row whose six values are all one integer. *)
Definition flat_bar (date value : Z) : Bar :=
  mkBar date (of_Z value) (of_Z value) (of_Z value) (of_Z value) (of_Z value)
        (of_Z value).

(** Sample inputs. *)
Definition volume_only : Config := mkConfig false 50 false 200 false 14 true.
Definition all_panels : Config := mkConfig true 50 true 200 true 14 true.
Definition three_bars : list Bar := [flat_bar 1 10; flat_bar 2 12; flat_bar 3 11].

(** The one pie of an ownership chart, with the grid cell it sits in. *)
Definition pie_chart (column : Z) (label : string) (pct : Q) (title : string)
  : Axes :=
  mkAxes 1 5 column column false [] [] []
    [mkPie [Fin pct; Fin (100 - pct)] ["black"; "white"]%string
           [Some label; None] false 90]
    (Some title) None false.

(** ** The momentum oscillator as the specification words it

    On a series of rational closes: the change from one close to the next,
    its gain and loss parts, each smoothed by an exponentially weighted
    average with weight [1 / periods] seeded from its first value, and the
    value [100 - 100 / (1 + gain / loss)], which is 100 when only the
    smoothed loss is zero and has no value when both smoothed parts are
    zero. *)

Definition spec_changes (c : list Q) : list Q := zip_with Qminus (tail c) c.

Definition spec_gain (d : Q) : Q := if Qle_bool d 0 then 0 else d.

Definition spec_loss (d : Q) : Q := if Qle_bool 0 d then 0 else Qabs d.

Fixpoint spec_ewma_from (alpha prev : Q) (xs : list Q) : list Q :=
  match xs with
  | [] => []
  | x :: rest =>
      let y := (1 - alpha) * prev + alpha * x in
      y :: spec_ewma_from alpha y rest
  end.

Definition spec_ewma (alpha : Q) (xs : list Q) : list Q :=
  match xs with
  | [] => []
  | x :: rest => x :: spec_ewma_from alpha x rest
  end.

Definition spec_oscillator_value (g l : Q) : option Q :=
  if Qeq_bool l 0 then (if Qeq_bool g 0 then None else Some 100)
  else Some (100 - 100 / (1 + g / l)).

Definition spec_oscillator (c : list Q) (periods : Z) : list (option Q) :=
  let alpha := 1 / inject_Z periods in
  let d := spec_changes c in
  zip_with spec_oscillator_value
    (spec_ewma alpha (map spec_gain d)) (spec_ewma alpha (map spec_loss d)).

(** The number of leading changes that are zero: the rows, after the
    first, before the price first moves. *)
Fixpoint leading_zeros (d : list Q) : nat :=
  match d with
  | [] => 0
  | x :: rest => if Qeq_bool x 0 then S (leading_zeros rest) else 0
  end.

Definition still_rows (c : list Q) : nat := leading_zeros (spec_changes c).

(** A float of the code against a value of the specification. *)
Definition same_value (x : float64) (v : option Q) : Prop :=
  match v with
  | Some q => feq x (Fin q)
  | None => x = NaN
  end.

(** The rational a finite float holds. *)
Definition to_Q (x : float64) : Q :=
  match x with Fin q => q | _ => 0 end.

Definition is_finite (x : float64) : bool :=
  match x with Fin _ => true | _ => false end.

Definition bar_finite (b : Bar) : bool :=
  is_finite (bar_open b) && is_finite (bar_high b) && is_finite (bar_low b) &&
  is_finite (bar_close b) && is_finite (bar_adj_close b) &&
  is_finite (bar_volume b).

Definition closes_of (fetched : list Bar) : list Q :=
  map (fun b => to_Q (bar_adj_close b)) fetched.

(** The frame [load_price_data] returns when called on the empty heap. *)
Definition frame_after_load (p : Z) (fetched : list Bar) : option DataFrame :=
  match load_price_data p fetched empty_heap with
  | Ok (data, h) => h !! data
  | Raise _ => None
  end.

(** A column of a frame that may be absent. *)
Definition column_of (name : string) (d : option DataFrame) : option column :=
  match d with
  | Some d => df_lookup name (df_columns d)
  | None => None
  end.

Definition still_then_up : list Bar := [flat_bar 1 1; flat_bar 2 1; flat_bar 3 2].

(** 250 fetched rows, the close rising by one a day. *)
Definition rising_250 : list Bar :=
  map (fun i => flat_bar (Z.of_nat i) (Z.of_nat i)) (seq 1 250).

(** The number of bars on each panel of a figure. *)
Definition bar_counts (fig : Figure) : list (list nat) :=
  map (fun a => map (fun b => length (bars_height b)) (ax_bars a)) fig.

(** ** The ticker table *)

(** A table [pd.read_html] parsed from the page: its columns of text, by
    label.  The columns of one table have the same number of rows. *)
Abbreviation HtmlTable := (gmap string (list string)).

(** [l[i]] on a Python list: a negative index counts from the end. *)
Definition py_index {A} (l : list A) (i : Z) : option A :=
  let n := Z.of_nat (length l) in
  let j := if (i <? 0)%Z then (i + n)%Z else i in
  if (0 <=? j)%Z && (j <? n)%Z then l !! Z.to_nat j else None.

(** What [load_tickers] gives: the frame of tickers indexed by company, one
    (company, ticker) pair a row, or the exception it raises: [IndexError]
    from [html[num]], [KeyError] with the label of the missing column. *)
Inductive tickers_result :=
| Tickers (rows : list (string * string))
| TickersIndexError
| TickersKeyError (label : string).

(** [load_tickers]; [html] stands for the tables [pd.read_html(url)]
    returns. *)
Definition load_tickers (html : list HtmlTable) (num : Z) : tickers_result :=
  match py_index html num with
  | None => TickersIndexError
  | Some table =>
      match table !! "Company"%string with
      | None => TickersKeyError "Company"
      | Some company =>
          match table !! "Ticker symbol"%string with
          | None => TickersKeyError "Ticker symbol"
          | Some ticker => Tickers (zip company ticker)
          end
      end
  end.

(** [TICKERS.index], the names the sidebar offers. *)
Definition tickers_index (tickers : list (string * string)) : list string :=
  map fst tickers.

(** What [series[label]] gives on a series indexed by text: the value of
    the one row with that label, the values of all such rows when there are
    several, or [KeyError]. *)
Inductive label_result :=
| Scalar (v : string)
| SubSeries (vs : list string)
| LabelKeyError.

(** [TICKERS["Ticker"][stock]] *)
Definition ticker_of (tickers : list (string * string)) (stock : string)
  : label_result :=
  match map snd (List.filter (fun row => String.eqb (fst row) stock) tickers) with
  | [] => LabelKeyError
  | [v] => Scalar v
  | vs => SubSeries vs
  end.

(** ** Institutional holders *)

(** A cell of the holders frame: a name, a number or a date. *)
Inductive cell :=
| Text (s : string)
| Number (x : float64)
| Stamp (t : Z).

(** What [load_institutional_holders] gives: the frame, by its labelled
    columns in order, or the exception it raises: [AttributeError] when
    Yahoo has no holders and the attribute is [None], [KeyError] when the
    frame has no column to drop. *)
Inductive holders_result :=
| Holders (columns : list (string * list cell))
| HoldersAttributeError
| HoldersKeyError (label : string).

(** [df.drop(columns=label)]: every column with that label goes; the label
    must be there. *)
Definition drop_columns (label : string) (columns : list (string * list cell))
  : option (list (string * list cell)) :=
  if existsb (fun c => String.eqb (fst c) label) columns
  then Some (List.filter (fun c => negb (String.eqb (fst c) label)) columns)
  else None.

(** [load_institutional_holders]; [institutional_holders] stands for
    [yf.Ticker(ticker).institutional_holders]. *)
Definition load_institutional_holders
    (institutional_holders : option (list (string * list cell)))
  : holders_result :=
  match institutional_holders with
  | None => HoldersAttributeError
  | Some columns =>
      match drop_columns "Value" columns with
      | Some columns' => Holders columns'
      | None => HoldersKeyError "Value"
      end
  end.

(** ** Auxiliary definitions for the further statements *)

(** A float that holds a rational in [0, 100]. *)
Definition in_0_100 (x : float64) : Prop :=
  match x with
  | Fin v => 0 <= v <= 100
  | _ => False
  end.

(** No value of the column is missing. *)
Definition column_complete (c : column) : Prop :=
  match c with
  | FloatCol v => Forall (fun x => notna x = true) v
  | DateCol _ => True
  end.

Definition column_length (c : column) : nat :=
  match c with
  | FloatCol v => length v
  | DateCol v => length v
  end.

(** The closes never fall, and never rise, from one row to the next. *)
Definition never_falls (c : list Q) : Prop := Forall (fun d => 0 <= d) (spec_changes c).
Definition never_rises (c : list Q) : Prop := Forall (fun d => d <= 0) (spec_changes c).

(** Sample tables. *)
Definition dax_table : HtmlTable :=
  {[ "Company"%string := ["Adidas"; "BASF"]%string;
     "Ticker symbol"%string := ["ADS.DE"; "BAS.DE"]%string ]}.

Definition table_without_symbols : HtmlTable :=
  {[ "Company"%string := ["Adidas"]%string ]}.

(** * Properties *)

(** ** Columns of a frame *)

Lemma df_lookup_assign_eq name col cols :
  df_lookup name (df_assign name col cols) = Some col.
Proof.
  induction cols as [|[n c] cols IH]; simpl.
  - by rewrite String.eqb_refl.
  - destruct (String.eqb n name) eqn:E; simpl; rewrite E; [done | exact IH].
Qed.

Lemma df_lookup_assign_ne name name' col cols :
  name <> name' ->
  df_lookup name' (df_assign name col cols) = df_lookup name' cols.
Proof.
  intros Hne. induction cols as [|[n c] cols IH]; simpl.
  - destruct (String.eqb_spec name name'); [done | done].
  - destruct (String.eqb_spec n name) as [->|Hn]; simpl.
    + destruct (String.eqb_spec name name'); [done | done].
    + by rewrite IH.
Qed.

Lemma df_floats_set_ne name name' col df :
  name <> name' -> df_floats name' (df_set name col df) = df_floats name' df.
Proof.
  intros Hne. unfold df_floats, df_set. simpl.
  by rewrite df_lookup_assign_ne.
Qed.

Lemma rsi_column_head p :
  exists rest, rsi_column p = String "R" rest.
Proof. by eexists. Qed.

Lemma date_is_not_rsi_column p : "Date"%string <> rsi_column p.
Proof. destruct (rsi_column_head p) as [rest ->]. discriminate. Qed.

(** ** [select] *)

Lemma select_length_le {A} (mask : list bool) (l : list A) :
  (length (select mask l) <= length l)%nat.
Proof.
  revert l. induction mask as [|b mask IH]; intros [|x l]; simpl; try lia.
  specialize (IH l). destruct b; simpl; lia.
Qed.

Lemma select_length_eq {A B} (mask : list bool) (l : list A) (l' : list B) :
  length l = length l' -> length (select mask l) = length (select mask l').
Proof.
  revert l l'. induction mask as [|b mask IH]; intros [|x l] [|y l'] E;
    simpl in *; try done.
  destruct b; simpl; rewrite (IH l l'); auto.
Qed.

(** ** Lengths of the indicator columns *)

Lemma prep_values_length vals : length (prep_values vals) = length vals.
Proof. unfold prep_values. by rewrite length_map. Qed.

Lemma prep_values_lookup vals i :
  prep_values vals !! i = (fun x => if isinf x then NaN else x) <$> vals !! i.
Proof. unfold prep_values. apply list_lookup_fmap. Qed.

(** A column without infinite values is read as it is. *)
Lemma prep_values_id vals :
  Forall (fun x => isinf x = false) vals -> prep_values vals = vals.
Proof.
  unfold prep_values. induction 1 as [|x vals Hx Hrest IH]; simpl; [done|].
  by rewrite Hx, IH.
Qed.

Lemma ewm_loop_length alpha w old vals :
  length (ewm_loop alpha w old vals) = length vals.
Proof.
  revert w old. induction vals as [|cur rest IH]; intros w old; simpl; [done|].
  destruct (isna w); simpl; [by rewrite IH|].
  destruct (isna cur); simpl; by rewrite IH.
Qed.

Lemma diff_length s : length (diff s) = length s.
Proof.
  destruct s as [|x rest]; simpl; [done|].
  rewrite length_zip_with. simpl. lia.
Qed.

Lemma rsi_up_length s : length (rsi_up s) = length s.
Proof. unfold rsi_up, clip_lower, rsi_delta. by rewrite length_map, diff_length. Qed.

Lemma rsi_down_length s : length (rsi_down s) = length s.
Proof.
  unfold rsi_down, clip_upper, rsi_delta. by rewrite !length_map, diff_length.
Qed.

Lemma ewm_mean_ok com vals :
  (0 <= com)%Z ->
  ewm_mean com vals
    = Ok (ewm_loop (1 / (1 + inject_Z com)) NaN 1 (prep_values vals)).
Proof.
  intros H. unfold ewm_mean. destruct (Z.ltb_spec com 0); [lia | done].
Qed.

Lemma rsi_ok s p : (1 <= p)%Z -> rsi s p = Ok (rsi_of s p).
Proof.
  intros H. unfold rsi, rsi_ema_up, rsi_ema_down.
  rewrite !ewm_mean_ok by lia. reflexivity.
Qed.

Lemma rsi_of_length s p : length (rsi_of s p) = length s.
Proof.
  unfold rsi_of, ema_up_of, ema_down_of.
  rewrite length_map, length_zip_with, !ewm_loop_length, !prep_values_length,
    rsi_up_length, rsi_down_length. lia.
Qed.

(** The lengths of the columns in play, for [autorewrite]. *)
Create Rewrite HintDb series_length.
#[global] Hint Rewrite @length_map @length_seq @length_zip_with
  ewm_loop_length diff_length rsi_up_length rsi_down_length rsi_of_length
  prep_values_length
  : series_length.

Lemma sma_ok s w :
  (0 <= w)%Z ->
  sma s w = Ok (map (rolling_mean_at (Z.to_nat w) (Z.to_nat w) (prep_values s))
                    (seq 0 (length s))).
Proof.
  intros H. unfold sma, rolling_mean. destruct (Z.ltb_spec w 0); [lia | done].
Qed.

(** ** Moving average *)

Lemma lookup_map {A B} (f : A -> B) (l : list A) (i : nat) :
  map f l !! i = f <$> (l !! i).
Proof. exact (list_lookup_fmap f l i). Qed.

Lemma fold_fadd_nan l : fold_left fadd l NaN = NaN.
Proof. induction l as [|x l IH]; simpl; [done | exact IH]. Qed.

Lemma fadd_nan_r x : fadd x NaN = NaN.
Proof. by destruct x. Qed.

(** Either a window has no missing value, or its sum is NaN and it has fewer
    observations than rows. *)
Lemma filter_notna_cases (l : Series) (acc : float64) :
  List.filter notna l = l \/
  ((length (List.filter notna l) < length l)%nat /\ fold_left fadd l acc = NaN).
Proof.
  revert acc. induction l as [|x l IH]; intros acc; simpl; [by left|].
  destruct (isna x) eqn:Hx; unfold notna; rewrite Hx; simpl.
  - right. split.
    + pose proof (filter_length notna l). unfold notna in *. lia.
    + destruct x; try discriminate. rewrite fadd_nan_r. apply fold_fadd_nan.
  - destruct (IH (fadd acc x)) as [Heq|[Hlen Hsum]].
    + left. unfold notna in Heq. by rewrite Heq.
    + right. unfold notna in Hlen. split; [lia | assumption].
Qed.

Lemma rolling_window_short w vals i :
  (S i < w)%nat -> (length (rolling_window w vals i) < w)%nat.
Proof.
  intros H. unfold rolling_window. rewrite length_take. lia.
Qed.

Lemma rolling_window_full w vals i :
  (w <= S i)%nat -> (i < length vals)%nat ->
  rolling_window w vals i = take w (drop (i + 1 - w) vals) /\
  length (rolling_window w vals i) = w.
Proof.
  intros Hw Hi. unfold rolling_window.
  replace (S i - (S i - w))%nat with w by lia.
  replace (S i - w)%nat with (i + 1 - w)%nat by lia.
  split; [done|]. rewrite length_take, length_drop. lia.
Qed.

Lemma rolling_mean_at_short w vals i :
  (S i < w)%nat -> rolling_mean_at w w vals i = NaN.
Proof.
  intros H. unfold rolling_mean_at.
  pose proof (rolling_window_short w vals i H) as Hlen.
  pose proof (filter_length notna (rolling_window w vals i)) as Hf.
  destruct (Nat.leb_spec w (length (List.filter notna (rolling_window w vals i))));
    [lia | done].
Qed.

Lemma rolling_mean_at_full w vals i :
  (1 <= w)%nat -> (w <= S i)%nat -> (i < length vals)%nat ->
  rolling_mean_at w w vals i = arithmetic_mean (take w (drop (i + 1 - w) vals)).
Proof.
  intros H1 Hw Hi. unfold rolling_mean_at, arithmetic_mean.
  destruct (rolling_window_full w vals i Hw Hi) as [Hwin Hlen].
  rewrite <- Hwin.
  destruct (filter_notna_cases (rolling_window w vals i) (Fin 0)) as [->|[Hlt Hsum]].
  - rewrite Hlen.
    destruct (Nat.leb_spec w w); [|lia].
    destruct (Nat.ltb_spec 0 w); [done | lia].
  - unfold fsum at 2. rewrite Hsum. simpl.
    destruct (Nat.leb_spec w (length (List.filter notna (rolling_window w vals i))));
      [lia | done].
Qed.

(** C5 as stated fails on a series that holds an infinite value: pandas
    reads it as missing, so the two windows of [1, inf, 3, 4] that hold it
    have no value, where their arithmetic mean is infinite. *)
Lemma sma_infinite_value_is_missing :
  sma [of_Z 1; PInf; of_Z 3; of_Z 4] 2 = Ok [NaN; NaN; NaN; Fin (7 # 2)] /\
  arithmetic_mean [of_Z 1; PInf] = PInf /\
  arithmetic_mean [PInf; of_Z 3] = PInf.
Proof. repeat split; vm_compute; reflexivity. Qed.

(** C5, as the code has it: for a window [w] with [1 <= w <= len(S)],
    [sma S w] has no value before index [w - 1], and at every index
    [i >= w - 1] it is the arithmetic mean of [S[i-w+1 .. i]] read with
    every infinite value as a missing one - so, on a series without
    infinite values, the arithmetic mean of [S[i-w+1 .. i]] itself. *)
Theorem sma_is_trailing_mean (S : Series) (w : Z) :
  (1 <= w <= Z.of_nat (length S))%Z ->
  exists out, sma S w = Ok out /\ length out = length S /\
    (forall i, (i < length S)%nat -> (Z.of_nat i < w - 1)%Z -> out !! i = Some NaN) /\
    (forall i, (i < length S)%nat -> (w - 1 <= Z.of_nat i)%Z ->
       out !! i = Some (arithmetic_mean
                          (take (Z.to_nat w)
                                (drop (i + 1 - Z.to_nat w) (prep_values S))))) /\
    (Forall (fun x => isinf x = false) S ->
     forall i, (i < length S)%nat -> (w - 1 <= Z.of_nat i)%Z ->
       out !! i = Some (arithmetic_mean
                          (take (Z.to_nat w) (drop (i + 1 - Z.to_nat w) S)))).
Proof.
  intros [H1 Hlen]. eexists. split; [apply sma_ok; lia|].
  split; [by rewrite length_map, length_seq|].
  assert (Hmean : forall i, (i < length S)%nat -> (w - 1 <= Z.of_nat i)%Z ->
            map (rolling_mean_at (Z.to_nat w) (Z.to_nat w) (prep_values S))
                (seq 0 (length S)) !! i
            = Some (arithmetic_mean
                      (take (Z.to_nat w)
                            (drop (i + 1 - Z.to_nat w) (prep_values S))))).
  { intros i Hi Hge.
    rewrite lookup_map, lookup_seq_lt by done. simpl.
    f_equal. apply rolling_mean_at_full; rewrite ?prep_values_length; lia. }
  split; [|split].
  - intros i Hi Hlt.
    rewrite lookup_map, lookup_seq_lt by done. simpl.
    f_equal. apply rolling_mean_at_short. lia.
  - exact Hmean.
  - intros Hfin i Hi Hge. rewrite (Hmean i Hi Hge).
    by rewrite (prep_values_id S Hfin).
Qed.

Lemma sma_is_trailing_mean_witness :
  exists out, sma [of_Z 3; of_Z 5; of_Z 10] 2 = Ok out /\ length out = 3%nat /\
    out !! 0%nat = Some NaN /\ out !! 2%nat = Some (Fin (15 # 2)).
Proof.
  destruct (sma_is_trailing_mean [of_Z 3; of_Z 5; of_Z 10] 2)
    as (out & Hout & Hlen & Hnan & Hmean & _); [simpl; lia|].
  exists out. split; [exact Hout|]. split; [exact Hlen|]. split.
  - apply Hnan; simpl; lia.
  - rewrite (Hmean 2%nat); [reflexivity | simpl; lia | simpl; lia].
Defined.

(** C8: a series with fewer rows than the window gives an all-undefined
    column of the same length, and no exception. *)
Theorem sma_short_series (S : Series) (w : Z) :
  (Z.of_nat (length S) < w)%Z ->
  sma S w = Ok (replicate (length S) NaN).
Proof.
  intros H. rewrite sma_ok by lia. f_equal.
  apply list_eq. intros i.
  rewrite lookup_map.
  destruct (Nat.lt_ge_cases i (length S)) as [Hi|Hi].
  - rewrite lookup_seq_lt by done. simpl.
    rewrite lookup_replicate_2 by done.
    f_equal. apply rolling_mean_at_short. lia.
  - rewrite lookup_seq_ge by done. simpl. symmetry.
    apply lookup_replicate_None. lia.
Qed.

Lemma sma_short_series_witness :
  sma [of_Z 3; of_Z 5; of_Z 10] 50 = Ok [NaN; NaN; NaN].
Proof. apply (sma_short_series [of_Z 3; of_Z 5; of_Z 10] 50). simpl. lia. Defined.

(** ** Interval conversion *)

(** C10: [convert_interval] maps ["1 day"], ["1 week"] and ["1 month"] to
    ["1d"], ["1wk"] and ["1mo"], and gives back every other string as it is. *)
Theorem convert_interval_total (s : string) :
  convert_interval "1 day" = "1d"%string /\
  convert_interval "1 week" = "1wk"%string /\
  convert_interval "1 month" = "1mo"%string /\
  (s <> "1 day"%string -> s <> "1 week"%string -> s <> "1 month"%string ->
   convert_interval s = s).
Proof.
  repeat split.
  intros Hd Hw Hm. unfold convert_interval.
  destruct (String.eqb_spec s "1 day"); [done|].
  destruct (String.eqb_spec s "1 week"); [done|].
  destruct (String.eqb_spec s "1 month"); [done|].
  reflexivity.
Qed.

Lemma convert_interval_total_witness :
  convert_interval "1 hour" = "1 hour"%string.
Proof.
  apply (convert_interval_total "1 hour"); discriminate.
Defined.

(** ** The oscillator stays in [0, 100] *)

Lemma smoothing_factor_range (p : Z) :
  (1 <= p)%Z ->
  0 < 1 / (1 + inject_Z (p - 1)) /\ 1 / (1 + inject_Z (p - 1)) <= 1.
Proof.
  intros H.
  assert (Hp : 1 <= 1 + inject_Z (p - 1)).
  { assert (0 <= inject_Z (p - 1)) by (rewrite <- (Zle_Qle 0); lia). lra. }
  split.
  - apply Qlt_shift_div_l; lra.
  - apply Qle_shift_div_r; lra.
Qed.

Lemma clip_lower_nonneg x :
  nonneg_or_nan (if fltb x (of_Z 0) then of_Z 0 else x).
Proof.
  destruct x as [a| | |]; simpl; try done.
  destruct (Qcompare_spec a (inject_Z 0)) as [H|H|H]; simpl;
    unfold inject_Z in *; lra.
Qed.

Lemma clip_upper_neg_nonneg x :
  nonneg_or_nan (fmul (of_Z (-1)) (if fltb (of_Z 0) x then of_Z 0 else x)).
Proof.
  destruct x as [a| | |]; simpl; try done.
  destruct (Qcompare_spec (inject_Z 0) a) as [H|H|H]; simpl;
    unfold inject_Z in *; lra.
Qed.

Lemma Forall_map_all {A B} (P : B -> Prop) (f : A -> B) (l : list A) :
  (forall x, P (f x)) -> Forall P (map f l).
Proof. intros H. induction l; simpl; constructor; auto. Qed.

Lemma rsi_up_nonneg s : Forall nonneg_or_nan (rsi_up s).
Proof.
  unfold rsi_up, clip_lower. apply Forall_map_all. apply clip_lower_nonneg.
Qed.

Lemma rsi_down_nonneg s : Forall nonneg_or_nan (rsi_down s).
Proof.
  unfold rsi_down, clip_upper. rewrite map_map.
  apply Forall_map_all. apply clip_upper_neg_nonneg.
Qed.

Lemma prep_values_nonneg vals :
  Forall nonneg_or_nan vals -> Forall nonneg_or_nan (prep_values vals).
Proof.
  unfold prep_values. induction 1 as [|x vals Hx Hrest IH]; simpl;
    constructor; [by destruct x | done].
Qed.

Lemma fmul_nonneg a x :
  0 <= a -> nonneg_or_nan x -> nonneg_or_nan (fmul (Fin a) x).
Proof.
  intros Ha Hx. destruct x as [b| | |]; simpl in *; try done.
  - nra.
  - unfold scale_inf. destruct (Qcompare_spec a 0); simpl; try done. lra.
Qed.

Lemma fadd_nonneg x y :
  nonneg_or_nan x -> nonneg_or_nan y -> nonneg_or_nan (fadd x y).
Proof. destruct x, y; simpl; try done. lra. Qed.

Lemma fdiv_nonneg x d :
  0 < d -> nonneg_or_nan x -> nonneg_or_nan (fdiv x (Fin d)).
Proof.
  intros Hd Hx. destruct x as [a| | |]; simpl in *; try done.
  - destruct (Qcompare_spec d 0); simpl; try lra.
    apply Qle_shift_div_l; lra.
  - destruct (Qcompare_spec d 0); simpl; try done. lra.
Qed.

(** The running averages of a non-negative stream are non-negative. *)
Lemma ewm_loop_nonneg alpha w old vals :
  0 < alpha -> alpha <= 1 -> 0 <= old ->
  nonneg_or_nan w -> Forall nonneg_or_nan vals ->
  Forall nonneg_or_nan (ewm_loop alpha w old vals).
Proof.
  intros Ha0 Ha1. revert w old.
  induction vals as [|cur rest IH]; intros w old Hold Hw Hvals; simpl; [done|].
  inversion Hvals as [|? ? Hcur Hrest]; subst.
  destruct (isna w).
  { constructor; [done|]. by apply IH. }
  destruct (isna cur).
  { constructor; [done|]. apply IH; [nra | done | done]. }
  assert (Hnew : nonneg_or_nan
            (if feqb w cur then w
             else fdiv (fadd (fmul (Fin (old * (1 - alpha))) w) (fmul (Fin alpha) cur))
                       (Fin (old * (1 - alpha) + alpha)))).
  { destruct (feqb w cur); [done|].
    apply fdiv_nonneg; [nra|].
    apply fadd_nonneg; apply fmul_nonneg; try done; nra. }
  constructor; [done|]. apply IH; [lra | done | done].
Qed.

Lemma ema_up_nonneg s p : (1 <= p)%Z -> Forall nonneg_or_nan (ema_up_of s p).
Proof.
  intros H. destruct (smoothing_factor_range p H).
  apply ewm_loop_nonneg;
    [done | done | lra | done | apply prep_values_nonneg, rsi_up_nonneg].
Qed.

Lemma ema_down_nonneg s p : (1 <= p)%Z -> Forall nonneg_or_nan (ema_down_of s p).
Proof.
  intros H. destruct (smoothing_factor_range p H).
  apply ewm_loop_nonneg;
    [done | done | lra | done | apply prep_values_nonneg, rsi_down_nonneg].
Qed.

(** The value of the formula on a ratio that is finite and not negative. *)
Lemma rsi_value_finite r :
  0 <= r -> exists v, rsi_value (Fin r) = Fin v /\ 0 <= v /\ v <= 100.
Proof.
  intros Hr. unfold rsi_value, of_Z. simpl.
  assert (H1 : 0 < inject_Z 1 + r) by (unfold inject_Z; lra).
  destruct (Qcompare_spec (inject_Z 1 + r) 0); try lra.
  eexists. split; [reflexivity|].
  assert (Hq : 0 <= inject_Z 100 / (inject_Z 1 + r) <= 100).
  { split.
    - apply Qle_shift_div_l; [done | unfold inject_Z; lra].
    - apply Qle_shift_div_r; [done | unfold inject_Z in *; lra]. }
  unfold inject_Z in *. lra.
Qed.

(** The oscillator on two non-negative smoothed values. *)
Lemma rsi_value_cases g l :
  nonneg_or_nan g -> nonneg_or_nan l ->
  in_0_100_or_nan (rsi_value (fdiv g l)) /\
  (feq l (Fin 0) -> positive g -> feq (rsi_value (fdiv g l)) (of_Z 100)) /\
  (feq l (Fin 0) -> feq g (Fin 0) -> rsi_value (fdiv g l) = NaN).
Proof.
  intros Hg Hl.
  destruct g as [a| | |], l as [b| | |]; simpl in Hg, Hl; try done.
  - (* finite over finite *)
    simpl fdiv. destruct (Qcompare_spec b 0) as [Hb|Hb|Hb]; [|lra|].
    + unfold scale_inf. destruct (Qcompare_spec a 0) as [Ha|Ha|Ha]; [|lra|];
        repeat split; simpl; intros; try done; unfold inject_Z in *; lra.
    + assert (Hr : 0 <= a / b) by (apply Qle_shift_div_l; lra).
      destruct (rsi_value_finite (a / b) Hr) as (v & -> & Hv0 & Hv1).
      repeat split; simpl; intros; try done; try lra.
  - (* infinite gain, finite loss *)
    simpl fdiv. destruct (Qcompare_spec b 0) as [Hb|Hb|Hb]; try lra;
      repeat split; simpl; intros; try done; unfold inject_Z; try lra.
Qed.

(** C3, as the code has it: for [periods >= 1] every value of the oscillator
    is absent or lies in [0, 100]; where the smoothed loss is zero the value
    is 100 when the smoothed gain is positive, and absent when the smoothed
    gain is zero too. *)
Theorem rsi_range_and_saturation (S : Series) (periods : Z) :
  (1 <= periods)%Z ->
  exists out ema_up ema_down,
    rsi S periods = Ok out /\
    rsi_ema_up S periods = Ok ema_up /\
    rsi_ema_down S periods = Ok ema_down /\
    length out = length S /\
    forall i x, out !! i = Some x ->
      in_0_100_or_nan x /\
      exists g l, ema_up !! i = Some g /\ ema_down !! i = Some l /\
        (feq l (Fin 0) -> positive g -> feq x (of_Z 100)) /\
        (feq l (Fin 0) -> feq g (Fin 0) -> x = NaN).
Proof.
  intros Hp. exists (rsi_of S periods), (ema_up_of S periods), (ema_down_of S periods).
  split; [by apply rsi_ok|].
  split; [unfold rsi_ema_up; apply ewm_mean_ok; lia|].
  split; [unfold rsi_ema_down; apply ewm_mean_ok; lia|].
  split; [apply rsi_of_length|].
  intros i x Hx. unfold rsi_of in Hx.
  rewrite lookup_map in Hx.
  destruct (zip_with fdiv (ema_up_of S periods) (ema_down_of S periods) !! i)
    as [r|] eqn:Hr; [|discriminate].
  simpl in Hx. injection Hx as <-.
  apply lookup_zip_with_Some in Hr as (g & l & -> & Hg & Hl).
  pose proof (Forall_lookup_1 _ _ _ _ (ema_up_nonneg S periods Hp) Hg) as Hg0.
  pose proof (Forall_lookup_1 _ _ _ _ (ema_down_nonneg S periods Hp) Hl) as Hl0.
  destruct (rsi_value_cases g l Hg0 Hl0) as (Hrange & Hsat & Hnan).
  split; [exact Hrange|]. exists g, l. auto.
Qed.

Lemma rsi_range_and_saturation_witness :
  exists out, rsi [of_Z 10; of_Z 12; of_Z 11] 14 = Ok out /\
    forall i x, out !! i = Some x -> in_0_100_or_nan x.
Proof.
  destruct (rsi_range_and_saturation [of_Z 10; of_Z 12; of_Z 11] 14)
    as (out & up & down & Hout & _ & _ & _ & H); [lia|].
  exists out. split; [exact Hout|].
  intros i x Hx. exact (proj1 (H i x Hx)).
Defined.

(** C3 as stated fails on a series that does not move: the smoothed loss is
    zero at the second row, and so is the smoothed gain; the value there is
    absent, not 100. *)
Lemma rsi_flat_series_undefined :
  rsi_ema_up [of_Z 1; of_Z 1] 14 = Ok [NaN; Fin 0] /\
  rsi_ema_down [of_Z 1; of_Z 1] 14 = Ok [NaN; Fin 0] /\
  rsi [of_Z 1; of_Z 1] 14 = Ok [NaN; NaN].
Proof. repeat split; vm_compute; reflexivity. Qed.

(** ** What the loader leaves in the heap *)

Lemma dropna_mask_loaded p fetched :
  dropna_mask
    (df_set (rsi_column p) (FloatCol (rsi_of (map bar_adj_close fetched) p))
       (yf_frame fetched)) = kept_rows p fetched.
Proof.
  unfold dropna_mask, kept_rows. simpl df_index. rewrite length_map.
  destruct (rsi_column_head p) as [rest ->].
  apply list_eq. intros i. rewrite lookup_map.
  destruct (fetched !! i) as [b|] eqn:Hb.
  - assert (Hi : (i < length fetched)%nat) by (eapply lookup_lt_Some; eauto).
    rewrite lookup_seq_lt by done.
    assert (Hr : (i < length (rsi_of (map bar_adj_close fetched) p))%nat)
      by (rewrite rsi_of_length, length_map; done).
    apply lookup_lt_is_Some_2 in Hr as [x Hx].
    symmetry. simpl. apply lookup_zip_with_Some.
    exists (bar_complete b), (notna x). split; [|by rewrite !lookup_map, Hb, Hx].
    unfold row_complete, df_set, yf_frame. simpl.
    rewrite !lookup_map, Hb, Hx. simpl.
    unfold bar_complete. by rewrite !andb_true_r, !andb_assoc.
  - assert (Hi : (length fetched <= i)%nat) by (by apply lookup_ge_None).
    rewrite lookup_seq_ge by done. simpl. symmetry.
    apply lookup_ge_None. rewrite length_zip_with, !length_map. lia.
Qed.

Lemma dropna_loaded p fetched :
  dropna
    (df_set (rsi_column p) (FloatCol (rsi_of (map bar_adj_close fetched) p))
       (yf_frame fetched)) = loaded_frame p fetched.
Proof.
  unfold dropna. rewrite dropna_mask_loaded.
  unfold loaded_frame, df_set, yf_frame. simpl.
  destruct (rsi_column_head p) as [rest ->]. reflexivity.
Qed.

(** [load_price_data] puts one new object in the heap and returns its
    reference. *)
Lemma load_price_data_run p fetched (h : gmap nat DataFrame) :
  (1 <= p)%Z ->
  load_price_data p fetched h =
    Ok (fresh (dom h), <[fresh (dom h) := loaded_frame p fetched]> h).
Proof.
  intros Hp. unfold load_price_data, bind, alloc, load, modify, lift, ret.
  rewrite lookup_insert_eq. simpl.
  rewrite rsi_ok by done.
  rewrite lookup_insert_eq, insert_insert_eq.
  rewrite lookup_insert_eq, insert_insert_eq.
  by rewrite dropna_loaded.
Qed.

Lemma fresh_ref_unused (h : gmap nat DataFrame) : h !! fresh (dom h) = None.
Proof. apply not_elem_of_dom. apply is_fresh. Qed.

Lemma kept_rows_length p fetched : length (kept_rows p fetched) = length fetched.
Proof. unfold kept_rows. autorewrite with series_length. lia. Qed.

(** The first row never has an RSI value. *)
Lemma rsi_of_head x s p : exists rest, rsi_of (x :: s) p = NaN :: rest.
Proof.
  unfold rsi_of, ema_up_of, ema_down_of, rsi_up, rsi_down, rsi_delta,
    clip_lower, clip_upper, prep_values. simpl. by eexists.
Qed.

Lemma kept_rows_head b fetched p :
  exists rest, kept_rows p (b :: fetched) = false :: rest.
Proof.
  unfold kept_rows.
  change (map bar_adj_close (b :: fetched))
    with (bar_adj_close b :: map bar_adj_close fetched).
  destruct (rsi_of_head (bar_adj_close b) (map bar_adj_close fetched) p)
    as [rest ->]. simpl. rewrite andb_false_r. by eexists.
Qed.

Lemma loaded_frame_rows p fetched :
  (length (df_index (loaded_frame p fetched)) <= length fetched - 1)%nat.
Proof.
  unfold loaded_frame. cbn [df_index].
  destruct fetched as [|b fetched].
  - by destruct (kept_rows p []).
  - destruct (kept_rows_head b fetched p) as [rest ->].
    pose proof (select_length_le rest (map bar_date fetched)) as H.
    rewrite length_map in H. simpl. lia.
Qed.

(** ** What [plot_price] draws and what it changes *)

Arguments rsi_column : simpl never.
Arguments sma_label : simpl never.

Lemma plot_sma_run (h : gmap nat DataFrame) r d adj enabled periods color ax :
  h !! r = Some d ->
  df_floats "Adj Close" d = Ok adj ->
  length adj = length (df_index d) ->
  (0 <= periods)%Z ->
  plot_sma r enabled periods color ax h =
    Ok (mkAxes (ax_nrows ax) (ax_ncols ax) (ax_first ax) (ax_last ax) (ax_sharex ax)
          (ax_lines ax ++ sma_lines enabled periods color (df_index d) adj)
          (ax_hlines ax) (ax_bars ax) (ax_pies ax) (ax_title ax) (ax_yticks ax)
          (ax_legend ax), h).
Proof.
  intros Hr Hadj Hlen Hp. unfold plot_sma, sma_lines.
  destruct enabled.
  - unfold bind, floats_of, index_of, bind, load, lift, ret. rewrite Hr, Hadj.
    rewrite sma_ok by done. rewrite Hr. unfold ax_plot.
    rewrite length_map, length_seq, Hlen, Nat.eqb_refl. reflexivity.
  - unfold ret. rewrite app_nil_r. by destruct ax.
Qed.

Lemma plot_rsi_panel_run (h : gmap nat DataFrame) cfg r d rs :
  h !! r = Some d ->
  df_floats (rsi_column (rsi_periods cfg)) d = Ok rs ->
  length rs = length (df_index d) ->
  plot_rsi_panel cfg r h = Ok (rsi_panel cfg (df_index d) rs, h).
Proof.
  intros Hr Hrs Hlen. unfold plot_rsi_panel, rsi_panel.
  destruct (rsi_1 cfg); [|reflexivity].
  unfold bind, floats_of, index_of, bind, load, lift, ret. simpl.
  rewrite !Hr. simpl. rewrite Hrs. unfold ax_plot. simpl.
  rewrite Hlen, Nat.eqb_refl. reflexivity.
Qed.

Lemma plot_volume_panel_run (h : gmap nat DataFrame) cfg r d vol :
  h !! r = Some d ->
  df_floats "Volume" d = Ok vol ->
  length vol = length (df_index d) ->
  plot_volume_panel cfg r h = Ok (volume_panel cfg (df_index d) vol, h).
Proof.
  intros Hr Hvol Hlen. unfold plot_volume_panel, volume_panel.
  destruct (volume cfg); [|reflexivity].
  unfold bind, floats_of, index_of, bind, load, lift, ret.
  destruct (rsi_1 cfg); simpl; rewrite !Hr; simpl; rewrite Hvol; unfold ax_bar;
    simpl; rewrite Hlen, Nat.eqb_refl; reflexivity.
Qed.

(** [plot_price] on a frame it can draw: the figure, and the one change to
    the heap - the [Date] column set on the object it was handed. *)
Lemma plot_price_run (h : gmap nat DataFrame) cfg r d adj rs vol :
  h !! r = Some d ->
  chartable (rsi_periods cfg) d adj rs vol ->
  (0 <= sma_1_periods cfg)%Z -> (0 <= sma_2_periods cfg)%Z ->
  plot_price cfg r h =
    Ok (price_figure cfg (df_index d) adj rs vol,
        <[r := df_set "Date" (DateCol (df_index d)) d]> h).
Proof.
  intros Hr (Hadj & Hrs & Hvol & Ladj & Lrs & Lvol) H1 H2.
  set (d' := df_set "Date" (DateCol (df_index d)) d).
  set (h' := <[r := d']> h).
  assert (Hr' : h' !! r = Some d') by apply lookup_insert_eq.
  assert (Hadj' : df_floats "Adj Close" d' = Ok adj)
    by (unfold d'; rewrite df_floats_set_ne; done).
  assert (Hvol' : df_floats "Volume" d' = Ok vol)
    by (unfold d'; rewrite df_floats_set_ne; done).
  assert (Hrs' : df_floats (rsi_column (rsi_periods cfg)) d' = Ok rs).
  { unfold d'. rewrite df_floats_set_ne; [done | apply date_is_not_rsi_column]. }
  unfold plot_price. unfold bind at 1. unfold modify. rewrite Hr. fold d' h'.
  unfold bind at 1. simpl lift.
  unfold bind at 1. unfold index_of at 1, bind at 1, load, ret. rewrite Hr'.
  unfold bind at 1. unfold floats_of at 1, bind at 1, load, lift, ret.
  rewrite Hr', Hadj'.
  unfold bind at 1. unfold ax_plot. simpl length.
  change (df_index d') with (df_index d). rewrite Ladj, Nat.eqb_refl.
  unfold bind at 1.
  erewrite (plot_sma_run h' r d'); [|done|done|done|done].
  unfold bind at 1.
  erewrite (plot_sma_run h' r d'); [|done|done|done|done].
  unfold bind at 1.
  erewrite (plot_rsi_panel_run h' cfg r d'); [|done|done|done].
  unfold bind at 1.
  erewrite (plot_volume_panel_run h' cfg r d'); [|done|done|done].
  reflexivity.
Qed.

Lemma loaded_frame_chartable p fetched :
  let keep := kept_rows p fetched in
  chartable p (loaded_frame p fetched)
    (select keep (map bar_adj_close fetched))
    (select keep (rsi_of (map bar_adj_close fetched) p))
    (select keep (map bar_volume fetched)).
Proof.
  intros keep. unfold chartable, loaded_frame. fold keep.
  destruct (rsi_column_head p) as [rest Hrest].
  split; [by rewrite Hrest|]. split; [|split; [by rewrite Hrest|]].
  { unfold df_floats. cbn [df_columns]. rewrite Hrest. simpl.
    by rewrite String.eqb_refl. }
  repeat split.
  all: cbn [df_index]; apply select_length_eq; by autorewrite with series_length.
Qed.

(** One run: the reference is new, the figure is drawn from the loaded
    frame, and the only change to the heap is the new object, which ends as
    the loaded frame with its [Date] column. *)
Lemma render_price_run cfg fetched (h : gmap nat DataFrame) :
  (1 <= rsi_periods cfg)%Z ->
  (0 <= sma_1_periods cfg)%Z -> (0 <= sma_2_periods cfg)%Z ->
  let p := rsi_periods cfg in
  let keep := kept_rows p fetched in
  let d := loaded_frame p fetched in
  render_price cfg fetched h =
    Ok (fresh (dom h),
        price_figure cfg (df_index d)
          (select keep (map bar_adj_close fetched))
          (select keep (rsi_of (map bar_adj_close fetched) p))
          (select keep (map bar_volume fetched)),
        <[fresh (dom h) := df_set "Date" (DateCol (df_index d)) d]> h).
Proof.
  intros Hp H1 H2 p keep d. unfold render_price.
  unfold bind at 1. rewrite load_price_data_run by done.
  unfold bind at 1.
  erewrite plot_price_run;
    [| apply lookup_insert_eq | apply loaded_frame_chartable | done | done].
  unfold ret. by rewrite insert_insert_eq.
Qed.

Lemma slider_ranges_valid cfg :
  slider_ranges cfg ->
  (1 <= rsi_periods cfg)%Z /\ (0 <= sma_1_periods cfg)%Z /\
  (0 <= sma_2_periods cfg)%Z.
Proof. unfold slider_ranges. lia. Qed.

(** ** Panel layout *)

(** C1 as stated fails when the oscillator is off: the volume panel then
    takes the oscillator's place, rows 9 and 10 - two rows, not three, and
    not the row after the price panel. *)
Lemma volume_without_rsi_rows :
  option_map (map ax_rows) (figure_of_run volume_only three_bars)
    = Some [(1, 7); (9, 10)]%Z /\
  option_map (map ax_row_count) (figure_of_run volume_only three_bars)
    = Some [7; 2]%Z /\
  option_map (map panel_kind) (figure_of_run volume_only three_bars)
    = Some [Some PricePanel; Some VolumePanel].
Proof. repeat split; vm_compute; reflexivity. Qed.

(** C1, as the code has it: on the 14-row grid the price panel spans rows
    1 to 7; the oscillator panel, whenever it is on, spans rows 9 and 10,
    with or without the volume panel; with the oscillator off the volume
    panel spans rows 9 and 10; with the oscillator on the volume panel spans
    the three rows 12 to 14, which start after the oscillator panel ends;
    with both off the price panel is alone. *)
Theorem price_layout_rows (cfg : Config) (fetched : list Bar)
    (h : gmap nat DataFrame) :
  slider_ranges cfg ->
  exists r ax1 rest h',
    render_price cfg fetched h = Ok (r, ax1 :: rest, h') /\
    Forall (fun a => ax_nrows a = 14%Z /\ ax_ncols a = 1%Z) (ax1 :: rest) /\
    panel_kind ax1 = Some PricePanel /\ ax_rows ax1 = (1, 7)%Z /\
    (volume cfg = true -> rsi_1 cfg = false ->
       exists ax3, rest = [ax3] /\ panel_kind ax3 = Some VolumePanel /\
         ax_rows ax3 = (9, 10)%Z /\ ax_row_count ax3 = 2%Z) /\
    (volume cfg = true -> rsi_1 cfg = true ->
       exists ax2 ax3, rest = [ax2; ax3] /\
         panel_kind ax2 = Some OscillatorPanel /\ ax_rows ax2 = (9, 10)%Z /\
         panel_kind ax3 = Some VolumePanel /\ ax_rows ax3 = (12, 14)%Z /\
         ax_row_count ax3 = 3%Z /\
         (ax_row_last ax2 < ax_row_first ax3)%Z) /\
    (rsi_1 cfg = true ->
       exists ax2 below, rest = ax2 :: below /\
         panel_kind ax2 = Some OscillatorPanel /\
         ax_rows ax2 = (9, 10)%Z /\ ax_row_count ax2 = 2%Z /\
         (volume cfg = false -> below = [])) /\
    (rsi_1 cfg = false -> volume cfg = false -> rest = []).
Proof.
  intros Hcfg. destruct (slider_ranges_valid cfg Hcfg) as (Hp & H1 & H2).
  eexists _, _, _, _. split; [by apply render_price_run|].
  unfold rsi_panel, volume_panel.
  split; [|split; [reflexivity|split; [reflexivity|split; [|split; [|split]]]]].
  - destruct (rsi_1 cfg), (volume cfg); repeat constructor.
  - intros -> ->. eexists. repeat split.
  - intros -> ->. eexists _, _. repeat split.
  - intros ->. eexists _, _. repeat split. by intros ->.
  - intros -> ->. reflexivity.
Qed.

Lemma price_layout_rows_witness :
  exists r ax1 rest h',
    render_price all_panels three_bars empty_heap = Ok (r, ax1 :: rest, h') /\
    ax_rows ax1 = (1, 7)%Z /\
    exists ax2 ax3, rest = [ax2; ax3] /\ (ax_row_last ax2 < ax_row_first ax3)%Z.
Proof.
  destruct (price_layout_rows all_panels three_bars empty_heap)
    as (r & ax1 & rest & h' & Hrun & _ & _ & Hrows & _ & Hboth & _).
  { unfold slider_ranges, all_panels. simpl. lia. }
  exists r, ax1, rest, h'. split; [exact Hrun|]. split; [exact Hrows|].
  destruct (Hboth eq_refl eq_refl) as (ax2 & ax3 & Hrest & _ & _ & _ & _ & _ & Hlt).
  exists ax2, ax3. split; [exact Hrest | exact Hlt].
Defined.

(** C6: whatever the flags, the figure is drawn without an exception and
    holds the price panel, then the oscillator panel if and only if it is
    enabled, then the volume panel if and only if it is enabled, each below
    the one before; with both flags off the price panel is alone. *)
Theorem panels_follow_flags (cfg : Config) (fetched : list Bar)
    (h : gmap nat DataFrame) :
  slider_ranges cfg ->
  exists r fig h',
    render_price cfg fetched h = Ok (r, fig, h') /\
    map panel_kind fig =
      Some PricePanel
        :: (if rsi_1 cfg then [Some OscillatorPanel] else [])
        ++ (if volume cfg then [Some VolumePanel] else []) /\
    stacked_top_down fig /\
    (rsi_1 cfg = false -> volume cfg = false -> length fig = 1%nat).
Proof.
  intros Hcfg. destruct (slider_ranges_valid cfg Hcfg) as (Hp & H1 & H2).
  eexists _, _, _. split; [by apply render_price_run|].
  unfold price_figure, rsi_panel, volume_panel.
  split; [|split].
  - destruct (rsi_1 cfg), (volume cfg); reflexivity.
  - intros i a b Ha Hb.
    destruct (rsi_1 cfg), (volume cfg);
      repeat (destruct i as [|i]; simpl in Ha, Hb; try discriminate);
      injection Ha as <-; injection Hb as <-; reflexivity.
  - intros -> ->. reflexivity.
Qed.

Lemma panels_follow_flags_witness :
  exists r fig h',
    render_price volume_only three_bars empty_heap = Ok (r, fig, h') /\
    map panel_kind fig = [Some PricePanel; Some VolumePanel].
Proof.
  destruct (panels_follow_flags volume_only three_bars empty_heap)
    as (r & fig & h' & Hrun & Hkinds & _).
  { unfold slider_ranges, volume_only. simpl. lia. }
  exists r, fig, h'. split; [exact Hrun | exact Hkinds].
Defined.

(** ** Ownership pies *)

Lemma holders_cell_lookup (major_holders : list (list string)) col i s :
  major_holders !! 0%nat = Some col -> col !! i = Some s ->
  holders_cell major_holders i = Ok s.
Proof. intros H0 Hi. unfold holders_cell. by rewrite H0, Hi. Qed.

Lemma holder_pie_run label pct column title :
  0 <= pct <= 100 -> (1 <= column <= 5)%Z ->
  holder_pie label (Fin pct) column title = Ok (pie_chart column label pct title).
Proof.
  intros [H0 H100] Hc. unfold holder_pie, subplot.
  destruct (Z.leb_spec 1 column) as [_|?]; [|lia].
  destruct (Z.leb_spec column column) as [_|?]; [|lia].
  destruct (Z.leb_spec column (1 * 5)) as [_|?]; [|lia].
  simpl. unfold ax_pie. simpl.
  destruct (Qcompare_spec pct (inject_Z 0)) as [H|H|H];
    [| unfold inject_Z in H; lra |];
    (destruct (Qcompare_spec (inject_Z 100 + - pct) (inject_Z 0)) as [H'|H'|H'];
     [| unfold inject_Z in H'; lra |]); reflexivity.
Qed.

(** C7, as the code has it: the three entries of the first column are the
    texts of three percentages; each is parsed after its last character is
    dropped, and drawn as a pie of the percentage and its complement to 100,
    black and white, clockwise from 90 degrees, labelled with the text itself
    on the first slice and nothing on the second; the pies sit in columns 1,
    3 and 5 of a row of five. *)
Theorem ownership_pies (major_holders : list (list string)) (col : list string)
    (s0 s1 s2 : string) (p0 p1 p2 : Q) :
  major_holders !! 0%nat = Some col ->
  col !! 0%nat = Some s0 -> col !! 1%nat = Some s1 -> col !! 2%nat = Some s2 ->
  python_float (drop_last s0) = Ok (Fin p0) ->
  python_float (drop_last s1) = Ok (Fin p1) ->
  python_float (drop_last s2) = Ok (Fin p2) ->
  0 <= p0 <= 100 -> 0 <= p1 <= 100 -> 0 <= p2 <= 100 ->
  plot_major_holders major_holders =
    Ok [ pie_chart 1 s0 p0 "% of Shares Held by Insiders";
         pie_chart 3 s1 p1 "% of Shares Held by Institutions";
         pie_chart 5 s2 p2 "% of Float Held by Institutions" ] /\
  map (fun a => (ax_ncols a, ax_col_first a, ax_col_last a))
    [ pie_chart 1 s0 p0 "% of Shares Held by Insiders";
      pie_chart 3 s1 p1 "% of Shares Held by Institutions";
      pie_chart 5 s2 p2 "% of Float Held by Institutions" ]
    = [(5, 1, 1); (5, 3, 3); (5, 5, 5)]%Z.
Proof.
  intros Hcol H0 H1 H2 F0 F1 F2 R0 R1 R2. split; [|reflexivity].
  unfold plot_major_holders.
  rewrite (holders_cell_lookup _ _ _ _ Hcol H0),
    (holders_cell_lookup _ _ _ _ Hcol H1),
    (holders_cell_lookup _ _ _ _ Hcol H2).
  simpl. rewrite F0. simpl. rewrite F1. simpl. rewrite F2. simpl.
  rewrite !holder_pie_run by (done || lia). reflexivity.
Qed.

Lemma ownership_pies_witness :
  exists ax1 ax2 ax3 pie,
    plot_major_holders [["47.3%"; "20.00%"; "30%"]%string] = Ok [ax1; ax2; ax3] /\
    ax_pies ax1 = [pie] /\
    pie_x pie = [Fin 47.3; Fin 52.7] /\
    pie_labels pie = [Some "47.3%"%string; None].
Proof.
  destruct (ownership_pies [["47.3%"; "20.00%"; "30%"]%string]
              ["47.3%"; "20.00%"; "30%"]%string "47.3%" "20.00%" "30%"
              47.3 (2000 # 100) (30 # 1)) as [Hrun _];
    try reflexivity; try (split; discriminate).
  eexists _, _, _, _. split; [exact Hrun|]. repeat split.
Defined.

(** C7 as stated fails: the label of a pie is not a name carried next to
    the percentage, it is the very text the percentage is read from.  A
    first entry ["Insiders"] makes [float] raise, and no input gives a pie
    labelled ["Insiders"]. *)
Lemma pie_label_is_percentage_text :
  plot_major_holders [["Insiders"; "20.00%"; "30%"]%string] = Raise ValueError /\
  ~ exists major_holders fig ax pie,
      plot_major_holders major_holders = Ok fig /\
      fig !! 0%nat = Some ax /\ ax_pies ax = [pie] /\
      pie_labels pie = [Some "Insiders"%string; None].
Proof.
  split; [vm_compute; reflexivity|].
  intros (mh & fig & ax & pie & Hrun & Hax & Hpies & Hlabels).
  unfold plot_major_holders in Hrun.
  destruct (holders_cell mh 0) as [s0|] eqn:E0; [|discriminate].
  simpl in Hrun.
  destruct (python_float (drop_last s0)) as [x0|] eqn:F0; [|discriminate].
  simpl in Hrun.
  destruct (holders_cell mh 1) as [s1|]; [|discriminate]. simpl in Hrun.
  destruct (python_float (drop_last s1)) as [x1|]; [|discriminate].
  simpl in Hrun.
  destruct (holders_cell mh 2) as [s2|]; [|discriminate]. simpl in Hrun.
  destruct (python_float (drop_last s2)) as [x2|]; [|discriminate].
  simpl in Hrun.
  destruct (holder_pie s0 x0 1 "% of Shares Held by Insiders") as [a1|] eqn:P0;
    [|discriminate].
  simpl in Hrun.
  destruct (holder_pie s1 x1 3 _) as [a2|]; [|discriminate]. simpl in Hrun.
  destruct (holder_pie s2 x2 5 _) as [a3|]; [|discriminate]. simpl in Hrun.
  injection Hrun as <-. simpl in Hax. injection Hax as <-.
  unfold holder_pie in P0. simpl in P0. unfold ax_pie in P0.
  destruct (existsb _ _); [discriminate|]. simpl in P0.
  injection P0 as <-. simpl in Hpies. injection Hpies as <-.
  simpl in Hlabels. injection Hlabels as ->.
  vm_compute in F0. discriminate.
Qed.

(** ** The oscillator of the code and of the specification *)

Lemma diff_finite (a : Q) (c : list Q) :
  diff (map Fin (a :: c)) = NaN :: map Fin (spec_changes (a :: c)).
Proof.
  unfold diff, spec_changes. simpl map at 1. cbn [tail]. f_equal.
  generalize (a :: c) as k. induction c as [|x c IH]; intros k; simpl; [done|].
  destruct k as [|y k]; simpl; [done|]. f_equal. apply IH.
Qed.

Lemma Qle_bool_false x y : Qle_bool x y = false -> y < x.
Proof.
  intros H. apply Qnot_le_lt. intros Hle.
  apply Qle_bool_iff in Hle. congruence.
Qed.

(** Case analysis on every [Qle_bool] test of the goal, each case with the
    order it stands for. *)
Ltac qle_cases :=
  repeat match goal with
  | |- context [Qle_bool ?a ?b] =>
      let E := fresh "E" in
      destruct (Qle_bool a b) eqn:E;
      [apply Qle_bool_iff in E | apply Qle_bool_false in E]
  end.

Lemma clip_gain d :
  feq (if fltb (Fin d) (of_Z 0) then of_Z 0 else Fin d) (Fin (spec_gain d)).
Proof.
  unfold spec_gain, of_Z. simpl.
  destruct (Qcompare_spec d (inject_Z 0)) as [H|H|H]; qle_cases; simpl;
    unfold inject_Z in *; lra.
Qed.

Lemma clip_loss d :
  feq (fmul (of_Z (-1)) (if fltb (of_Z 0) (Fin d) then of_Z 0 else Fin d))
      (Fin (spec_loss d)).
Proof.
  unfold spec_loss, of_Z. simpl.
  destruct (Qcompare_spec (inject_Z 0) d) as [H|H|H]; qle_cases; simpl;
    unfold inject_Z in *; try lra.
  rewrite Qabs_neg by lra. lra.
Qed.

Lemma spec_gain_nonneg d : 0 <= spec_gain d.
Proof.
  unfold spec_gain. qle_cases; lra.
Qed.

Lemma spec_loss_nonneg d : 0 <= spec_loss d.
Proof. unfold spec_loss. destruct (Qle_bool 0 d); [lra | apply Qabs_nonneg]. Qed.

(** A change is zero exactly when it has neither gain nor loss. *)
Lemma gain_loss_zero d : d == 0 -> spec_gain d == 0 /\ spec_loss d == 0.
Proof.
  intros H. unfold spec_gain, spec_loss. qle_cases; split; lra.
Qed.

Lemma gain_loss_moving d : ~ d == 0 -> 0 < spec_gain d + spec_loss d.
Proof.
  intros H. unfold spec_gain, spec_loss. qle_cases.
  - exfalso. apply H. lra.
  - rewrite Qabs_neg by lra. lra.
  - lra.
  - lra.
Qed.

Lemma ewm_loop_finite_step alpha w x rest :
  ewm_loop alpha (Fin w) 1 (Fin x :: rest) =
    (if Qeq_bool w x then Fin w
     else Fin ((1 * (1 - alpha) * w + alpha * x) / (1 * (1 - alpha) + alpha)))
      :: ewm_loop alpha
           (if Qeq_bool w x then Fin w
            else Fin ((1 * (1 - alpha) * w + alpha * x) / (1 * (1 - alpha) + alpha)))
           1 rest
  \/ (1 * (1 - alpha) + alpha) == 0.
Proof.
  destruct (Qcompare_spec (1 * (1 - alpha) + alpha) 0) as [H|H|H];
    [by right | left | left]; simpl;
    destruct (Qeq_bool w x); try reflexivity;
    destruct (Qcompare_spec (1 * (1 - alpha) + alpha) 0); try lra; reflexivity.
Qed.

(** On a stream of rationals the pass of the code computes the recursion of
    the specification, up to equality of rationals. *)
Lemma ewm_loop_spec alpha alpha' xs ys :
  alpha == alpha' ->
  Forall2 (fun x y => feq x (Fin y)) xs ys ->
  forall w w', w == w' ->
  Forall2 (fun x y => feq x (Fin y))
    (ewm_loop alpha (Fin w) 1 xs) (spec_ewma_from alpha' w' ys).
Proof.
  intros Ha Hxs. induction Hxs as [|x y xs ys Hxy Hrest IH]; intros w w' Hw.
  - constructor.
  - destruct x as [x| | |]; simpl in Hxy; try contradiction.
    destruct (ewm_loop_finite_step alpha w x xs) as [->|Hden]; [|lra].
    cbn [spec_ewma_from].
    assert (Hnew : feq (if Qeq_bool w x then Fin w
                        else Fin ((1 * (1 - alpha) * w + alpha * x)
                                  / (1 * (1 - alpha) + alpha)))
                       (Fin ((1 - alpha') * w' + alpha' * y))).
    { destruct (Qeq_bool w x) eqn:E; simpl.
      - apply Qeq_bool_iff in E.
        rewrite <- Hw, <- Hxy, <- E, <- Ha. ring.
      - assert (Hden : 1 * (1 - alpha) + alpha == 1) by ring.
        rewrite Hden, <- Hw, <- Hxy, <- Ha. field. }
    destruct (Qeq_bool w x).
    + constructor; [exact Hnew|]. apply IH. exact Hnew.
    + constructor; [exact Hnew|]. apply IH. exact Hnew.
Qed.

Lemma ewm_mean_spec alpha alpha' xs ys :
  alpha == alpha' ->
  Forall2 (fun x y => feq x (Fin y)) xs ys ->
  Forall2 (fun x y => feq x (Fin y))
    (ewm_loop alpha NaN 1 xs) (spec_ewma alpha' ys).
Proof.
  intros Ha Hxs. destruct Hxs as [|x y xs ys Hxy Hrest]; [constructor|].
  destruct x as [x| | |]; simpl in Hxy; try contradiction.
  simpl. constructor; [exact Hxy|].
  by apply ewm_loop_spec.
Qed.

Lemma spec_ewma_from_nonneg alpha prev xs :
  0 <= alpha -> alpha <= 1 -> 0 <= prev -> Forall (fun x => 0 <= x) xs ->
  Forall (fun x => 0 <= x) (spec_ewma_from alpha prev xs).
Proof.
  intros Ha0 Ha1 Hprev Hxs. revert prev Hprev.
  induction Hxs as [|x xs Hx Hrest IH]; intros prev Hprev; simpl; constructor.
  - nra.
  - apply IH. nra.
Qed.

Lemma spec_ewma_nonneg alpha xs :
  0 <= alpha -> alpha <= 1 -> Forall (fun x => 0 <= x) xs ->
  Forall (fun x => 0 <= x) (spec_ewma alpha xs).
Proof.
  intros Ha0 Ha1 Hxs. destruct Hxs as [|x xs Hx Hrest]; simpl; constructor;
    [done|]. by apply spec_ewma_from_nonneg.
Qed.

(** The formula of the code on two finite non-negative smoothed values. *)
Lemma rsi_value_spec g l g' l' :
  g == g' -> l == l' -> 0 <= g' -> 0 <= l' ->
  same_value (rsi_value (fdiv (Fin g) (Fin l))) (spec_oscillator_value g' l').
Proof.
  intros Hg Hl Hg0 Hl0. unfold spec_oscillator_value.
  destruct (Qeq_bool l' 0) eqn:El.
  - apply Qeq_bool_iff in El. simpl fdiv.
    destruct (Qcompare_spec l 0) as [H|H|H]; try lra.
    unfold scale_inf.
    destruct (Qeq_bool g' 0) eqn:Eg.
    + apply Qeq_bool_iff in Eg.
      destruct (Qcompare_spec g 0); try lra. reflexivity.
    + apply Qeq_bool_neq in Eg.
      destruct (Qcompare_spec g 0); try lra.
      simpl. unfold inject_Z. lra.
  - apply Qeq_bool_neq in El. simpl fdiv.
    destruct (Qcompare_spec l 0) as [H|H|H]; try lra.
    assert (Hr : 0 <= g / l) by (apply Qle_shift_div_l; lra).
    unfold rsi_value, of_Z. simpl.
    destruct (Qcompare_spec (inject_Z 1 + g / l) 0) as [H1|H1|H1];
      try (unfold inject_Z in H1; lra).
    simpl. rewrite Hg, Hl. unfold inject_Z. reflexivity.
Qed.

Lemma smoothing_factor_spec p :
  (1 <= p)%Z -> 1 / (1 + inject_Z (p - 1)) == 1 / inject_Z p.
Proof.
  intros H.
  assert (E : 1 + inject_Z (p - 1) == inject_Z p).
  { change 1 with (inject_Z 1). rewrite <- inject_Z_plus.
    replace (1 + (p - 1))%Z with p by lia. reflexivity. }
  by rewrite E.
Qed.

(** A finite value is read as it is. *)
Lemma prep_finite x y :
  feq x (Fin y) -> feq (if isinf x then NaN else x) (Fin y).
Proof. by destruct x. Qed.

Lemma gains_spec ds :
  Forall2 (fun x y => feq x (Fin y))
    (prep_values
       (map (fun x => if fltb x (of_Z 0) then of_Z 0 else x) (map Fin ds)))
    (map spec_gain ds).
Proof.
  unfold prep_values.
  induction ds; simpl; constructor; [apply prep_finite, clip_gain | done].
Qed.

Lemma losses_spec ds :
  Forall2 (fun x y => feq x (Fin y))
    (prep_values
       (map (fmul (of_Z (-1)))
          (map (fun x => if fltb (of_Z 0) x then of_Z 0 else x) (map Fin ds))))
    (map spec_loss ds).
Proof.
  unfold prep_values.
  induction ds; simpl; constructor; [apply prep_finite, clip_loss | done].
Qed.

Lemma zip_values_spec U D G L :
  Forall2 (fun x y => feq x (Fin y)) U G ->
  Forall2 (fun x y => feq x (Fin y)) D L ->
  Forall (fun x => 0 <= x) G -> Forall (fun x => 0 <= x) L ->
  Forall2 same_value (map rsi_value (zip_with fdiv U D))
                     (zip_with spec_oscillator_value G L).
Proof.
  intros HU. revert D L.
  induction HU as [|u g U G Hu HU IH]; intros D L HD HG HL; [constructor|].
  destruct HD as [|d l D L Hd HD]; [constructor|].
  inversion HG; inversion HL; subst.
  destruct u as [u| | |], d as [d| | |]; simpl in Hu, Hd; try contradiction.
  simpl zip_with. cbn [map]. constructor.
  - by apply rsi_value_spec.
  - by apply IH.
Qed.

(** Row by row, [rsi] on rational closes gives the values of the
    specification, after a first row without value. *)
Lemma rsi_of_spec (c : list Q) (p : Z) :
  (1 <= p)%Z ->
  Forall2 same_value (rsi_of (map Fin c) p)
    (match c with [] => [] | _ :: _ => None :: spec_oscillator c p end).
Proof.
  intros Hp. destruct c as [|a c]; [constructor|].
  destruct (smoothing_factor_range p Hp) as [Ha0 Ha1].
  pose proof (smoothing_factor_spec p Hp) as Ha.
  unfold rsi_of, ema_up_of, ema_down_of, rsi_up, rsi_down, rsi_delta,
    clip_lower, clip_upper.
  rewrite diff_finite.
  set (ds := spec_changes (a :: c)).
  set (gains := map (fun x => if fltb x (of_Z 0) then of_Z 0 else x) (map Fin ds)).
  set (losses := map (fmul (of_Z (-1)))
                   (map (fun x => if fltb (of_Z 0) x then of_Z 0 else x)
                        (map Fin ds))).
  set (alpha := 1 / (1 + inject_Z (p - 1))) in *.
  change (Forall2 same_value
            (NaN :: map rsi_value
                      (zip_with fdiv (ewm_loop alpha NaN 1 (prep_values gains))
                                     (ewm_loop alpha NaN 1 (prep_values losses))))
            (None :: spec_oscillator (a :: c) p)).
  constructor; [reflexivity|].
  unfold spec_oscillator. fold ds. apply zip_values_spec.
  - apply ewm_mean_spec; [exact Ha | apply gains_spec].
  - apply ewm_mean_spec; [exact Ha | apply losses_spec].
  - apply spec_ewma_nonneg; [rewrite <- Ha; lra | rewrite <- Ha; lra |].
    apply Forall_map_all. apply spec_gain_nonneg.
  - apply spec_ewma_nonneg; [rewrite <- Ha; lra | rewrite <- Ha; lra |].
    apply Forall_map_all. apply spec_loss_nonneg.
Qed.

(** Dropping the rows without value leaves the defined values, in order. *)
Lemma select_defined xs vs :
  Forall2 same_value xs vs ->
  Forall2 feq (select (map notna xs) xs) (map Fin (omap id vs)).
Proof.
  induction 1 as [|x v xs vs Hx Hrest IH]; [constructor|].
  destruct v as [q|]; simpl in Hx.
  - destruct x; simpl in Hx; try contradiction. simpl. by constructor.
  - subst x. simpl. exact IH.
Qed.

Lemma finite_bars_complete fetched (ys : list bool) :
  Forall (fun b => bar_finite b = true) fetched ->
  length ys = length fetched ->
  zip_with andb (map bar_complete fetched) ys = ys.
Proof.
  intros H. revert ys. induction H as [|b fetched Hb Hrest IH]; intros ys Hlen.
  - by destruct ys.
  - destruct ys as [|y ys]; [done|]. simpl. f_equal; [|apply IH; simpl in Hlen; lia].
    unfold bar_finite in Hb. unfold bar_complete.
    destruct (bar_open b), (bar_high b), (bar_low b), (bar_close b),
      (bar_adj_close b), (bar_volume b); try discriminate; reflexivity.
Qed.

Lemma finite_bars_closes fetched :
  Forall (fun b => bar_finite b = true) fetched ->
  map bar_adj_close fetched = map Fin (closes_of fetched).
Proof.
  unfold closes_of. induction 1 as [|b fetched Hb Hrest IH]; [done|].
  simpl. rewrite IH. f_equal.
  unfold bar_finite in Hb.
  destruct (bar_adj_close b); try reflexivity;
    rewrite ?andb_false_r in Hb; simpl in Hb; try discriminate;
    destruct (bar_open b), (bar_high b), (bar_low b), (bar_close b);
    discriminate.
Qed.

Lemma kept_rows_finite p fetched :
  Forall (fun b => bar_finite b = true) fetched ->
  kept_rows p fetched = map notna (rsi_of (map Fin (closes_of fetched)) p).
Proof.
  intros H. unfold kept_rows. rewrite finite_bars_complete; [|done|].
  - by rewrite finite_bars_closes.
  - by rewrite length_map, rsi_of_length, length_map.
Qed.

Lemma spec_value_some g l :
  0 <= g -> 0 <= l -> 0 < g + l -> is_Some (spec_oscillator_value g l).
Proof.
  intros Hg Hl Hpos. unfold spec_oscillator_value.
  destruct (Qeq_bool l 0) eqn:El; [|by eexists].
  destruct (Qeq_bool g 0) eqn:Eg; [|by eexists].
  apply Qeq_bool_iff in El, Eg. lra.
Qed.

Lemma spec_value_none g l :
  g == 0 -> l == 0 -> spec_oscillator_value g l = None.
Proof.
  intros Hg Hl. unfold spec_oscillator_value.
  apply Qeq_bool_iff in Hg, Hl. by rewrite Hl, Hg.
Qed.

Section SpecRows.

Variable alpha : Q.
Hypothesis alpha_pos : 0 < alpha.
Hypothesis alpha_below_1 : alpha < 1.

(** Once one of the smoothed parts is positive, every later row has a
    value. *)
Lemma spec_rows_moving ds :
  forall g l, 0 <= g -> 0 <= l -> 0 < g + l ->
  Forall is_Some
    (zip_with spec_oscillator_value
       (spec_ewma_from alpha g (map spec_gain ds))
       (spec_ewma_from alpha l (map spec_loss ds))).
Proof.
  induction ds as [|d ds IH]; intros g l Hg Hl Hpos; simpl; [constructor|].
  pose proof (spec_gain_nonneg d). pose proof (spec_loss_nonneg d).
  assert (0 <= (1 - alpha) * g + alpha * spec_gain d) by nra.
  assert (0 <= (1 - alpha) * l + alpha * spec_loss d) by nra.
  assert (0 < (1 - alpha) * g + alpha * spec_gain d
              + ((1 - alpha) * l + alpha * spec_loss d)) by nra.
  constructor; [by apply spec_value_some | by apply IH].
Qed.

(** While the price has not moved, no row has a value. *)
Lemma spec_rows_still ds :
  forall g l, g == 0 -> l == 0 ->
  exists rest,
    zip_with spec_oscillator_value
       (spec_ewma_from alpha g (map spec_gain ds))
       (spec_ewma_from alpha l (map spec_loss ds))
      = replicate (leading_zeros ds) None ++ rest /\
    Forall is_Some rest.
Proof.
  induction ds as [|d ds IH]; intros g l Hg Hl.
  - exists []. split; [reflexivity | constructor].
  - cbn [map spec_ewma_from zip_with leading_zeros].
    pose proof (spec_gain_nonneg d). pose proof (spec_loss_nonneg d).
    destruct (Qeq_bool d 0) eqn:Ed.
    + apply Qeq_bool_iff in Ed.
      destruct (gain_loss_zero d Ed) as [Hgd Hld].
      assert (Hg1 : (1 - alpha) * g + alpha * spec_gain d == 0)
        by (rewrite Hg, Hgd; ring).
      assert (Hl1 : (1 - alpha) * l + alpha * spec_loss d == 0)
        by (rewrite Hl, Hld; ring).
      destruct (IH _ _ Hg1 Hl1) as (rest & -> & Hrest).
      exists rest. split; [|exact Hrest].
      by rewrite spec_value_none.
    + apply Qeq_bool_neq in Ed. pose proof (gain_loss_moving d Ed).
      assert (0 <= (1 - alpha) * g + alpha * spec_gain d) by nra.
      assert (0 <= (1 - alpha) * l + alpha * spec_loss d) by nra.
      assert (0 < (1 - alpha) * g + alpha * spec_gain d
                  + ((1 - alpha) * l + alpha * spec_loss d)) by nra.
      eexists. split; [reflexivity|].
      constructor; [by apply spec_value_some | by apply spec_rows_moving].
Qed.

End SpecRows.

Lemma spec_ewma_from_length alpha prev xs :
  length (spec_ewma_from alpha prev xs) = length xs.
Proof.
  revert prev. induction xs as [|x xs IH]; intros prev; simpl; [done|].
  by rewrite IH.
Qed.

Lemma spec_oscillator_length c p :
  length (spec_oscillator c p) = (length c - 1)%nat.
Proof.
  unfold spec_oscillator, spec_changes.
  assert (Hd : length (zip_with Qminus (tail c) c) = (length c - 1)%nat).
  { rewrite length_zip_with. destruct c; simpl; lia. }
  revert Hd. generalize (zip_with Qminus (tail c) c) as d.
  intros d Hd. rewrite <- Hd. destruct d as [|x d]; [done|]. simpl.
  rewrite length_zip_with, !spec_ewma_from_length, !length_map. lia.
Qed.

(** With a smoothing weight below 1 the rows without value are the leading
    rows before the price first moves, and no other. *)
Lemma spec_oscillator_prefix c p :
  (2 <= p)%Z ->
  exists rest,
    spec_oscillator c p = replicate (still_rows c) None ++ rest /\
    Forall is_Some rest.
Proof.
  intros Hp. unfold spec_oscillator, still_rows.
  assert (Ha0 : 0 < 1 / inject_Z p).
  { apply Qlt_shift_div_l; [rewrite <- (Zlt_Qlt 0); lia | lra]. }
  assert (Ha1 : 1 / inject_Z p < 1).
  { apply Qlt_shift_div_r; [rewrite <- (Zlt_Qlt 0); lia|].
    rewrite Qmult_1_l. change 1 with (inject_Z 1). rewrite <- Zlt_Qlt. lia. }
  destruct (spec_changes c) as [|d ds]; [exists []; split; [done | constructor]|].
  cbn [map spec_ewma zip_with leading_zeros].
  pose proof (spec_gain_nonneg d). pose proof (spec_loss_nonneg d).
  destruct (Qeq_bool d 0) eqn:Ed.
  - apply Qeq_bool_iff in Ed. destruct (gain_loss_zero d Ed) as [Hgd Hld].
    destruct (spec_rows_still _ Ha0 Ha1 ds _ _ Hgd Hld) as (rest & -> & Hrest).
    exists rest. split; [|exact Hrest]. by rewrite spec_value_none.
  - apply Qeq_bool_neq in Ed. pose proof (gain_loss_moving d Ed).
    eexists. split; [reflexivity|].
    constructor; [by apply spec_value_some | by apply spec_rows_moving].
Qed.

Lemma omap_id_nones {A} (k : nat) (rest : list (option A)) :
  omap id (replicate k None ++ rest) = omap id rest.
Proof. induction k; simpl; [done | exact IHk]. Qed.

Lemma omap_id_somes {A} (rest : list (option A)) :
  Forall is_Some rest -> Some <$> omap id rest = rest.
Proof.
  induction 1 as [|v rest [x ->] Hrest IH]; [done|].
  csimpl. by rewrite IH.
Qed.

Lemma same_value_somes out qs :
  Forall2 feq out (map Fin qs) -> Forall2 same_value out (Some <$> qs).
Proof.
  revert out. induction qs as [|q qs IH]; intros out H; inversion H; subst;
    csimpl; constructor; [done | by apply IH].
Qed.

(** C4 as stated fails on closes 1, 1, 2: at the second row both smoothed
    values are defined (they are zero), yet the row is dropped with the
    first, and one row is returned instead of two. *)
Lemma still_row_is_dropped :
  rsi_ema_up (map bar_adj_close still_then_up) 14
    = Ok [NaN; Fin 0; Fin (2744 # 38416)] /\
  rsi_ema_down (map bar_adj_close still_then_up) 14 = Ok [NaN; Fin 0; Fin 0] /\
  column_of "RSI (14)" (frame_after_load 14 still_then_up)
    = Some (FloatCol [Fin 100]).
Proof. repeat split; vm_compute; reflexivity. Qed.

(** The RSI column the loader keeps, against the specification's
    oscillator. *)
Lemma kept_rsi_spec (fetched : list Bar) (p : Z) :
  (1 <= p)%Z ->
  Forall (fun b => bar_finite b = true) fetched ->
  let c := closes_of fetched in
  let out := select (kept_rows p fetched) (rsi_of (map bar_adj_close fetched) p) in
  Forall2 feq out (map Fin (omap id (spec_oscillator c p))) /\
  ((2 <= p)%Z ->
     length out = (length fetched - 1 - still_rows c)%nat /\
     Forall2 same_value out (drop (still_rows c) (spec_oscillator c p))).
Proof.
  intros Hp Hfin c out.
  assert (Hout : Forall2 feq out (map Fin (omap id (spec_oscillator c p)))).
  { unfold out. rewrite kept_rows_finite, finite_bars_closes by done. fold c.
    pose proof (select_defined _ _ (rsi_of_spec c p Hp)) as H.
    destruct c; [exact H|]. exact H. }
  split; [exact Hout|].
  intros Hp2.
  destruct (spec_oscillator_prefix c p Hp2) as (rest & Hspec & Hrest).
  pose proof (spec_oscillator_length c p) as Hlen.
  rewrite Hspec in Hout, Hlen |- *.
  rewrite omap_id_nones in Hout.
  rewrite length_app, length_replicate in Hlen.
  split.
  - rewrite (Forall2_length _ _ _ Hout), length_map.
    rewrite <- (omap_id_somes rest Hrest) in Hlen.
    rewrite length_fmap in Hlen.
    assert (Hc : length c = length fetched)
      by (unfold c, closes_of; by rewrite length_map).
    lia.
  - rewrite drop_app_length'; [|by rewrite length_replicate].
    rewrite <- (omap_id_somes rest Hrest). by apply same_value_somes.
Qed.

(** C4, as the code has it: on rows of finite values and for
    [periods >= 1], the RSI column that [load_price_data] leaves holds, in
    order, the values the specification's oscillator defines - changes split
    into gains and losses, each smoothed with weight [1 / periods] from its
    first value, then [100 - 100 / (1 + gain / loss)] - and drops every row
    where that value is undefined, the rows where both smoothed parts are
    zero included.  For [periods >= 2] those are the first row and the rows
    before the price first moves, so the column has [len - 1] rows less the
    number of such still rows. *)
Theorem oscillator_column_spec (fetched : list Bar) (periods : Z)
    (h : gmap nat DataFrame) :
  (1 <= periods)%Z ->
  Forall (fun b => bar_finite b = true) fetched ->
  exists data h' d out,
    load_price_data periods fetched h = Ok (data, h') /\
    h' !! data = Some d /\
    df_floats (rsi_column periods) d = Ok out /\
    Forall2 feq out
      (map Fin (omap id (spec_oscillator (closes_of fetched) periods))) /\
    ((2 <= periods)%Z ->
       length out = (length fetched - 1 - still_rows (closes_of fetched))%nat /\
       Forall2 same_value out
         (drop (still_rows (closes_of fetched))
               (spec_oscillator (closes_of fetched) periods))).
Proof.
  intros Hp Hfin.
  exists (fresh (dom h)), (<[fresh (dom h) := loaded_frame periods fetched]> h),
    (loaded_frame periods fetched),
    (select (kept_rows periods fetched)
            (rsi_of (map bar_adj_close fetched) periods)).
  split; [by apply load_price_data_run|].
  split; [apply lookup_insert_eq|].
  split; [apply (loaded_frame_chartable periods fetched)|].
  by apply kept_rsi_spec.
Qed.

Lemma oscillator_column_spec_witness :
  exists data h' d out,
    load_price_data 14 still_then_up empty_heap = Ok (data, h') /\
    h' !! data = Some d /\
    df_floats (rsi_column 14) d = Ok out /\
    length out = 1%nat.
Proof.
  destruct (oscillator_column_spec still_then_up 14 empty_heap)
    as (data & h' & d & out & Hrun & Hd & Hout & _ & Hlen).
  { lia. }
  { repeat constructor. }
  exists data, h', d, out. repeat split; try assumption.
  destruct Hlen as [Hlen _]; [lia|]. exact Hlen.
Defined.

(** ** The full chart *)

(** C2 as stated fails: of 250 fetched rows the first has no RSI value and
    is dropped from the whole frame, so the volume panel shows 249 bars. *)
Lemma first_row_has_no_bar :
  length rising_250 = 250%nat /\
  option_map bar_counts (figure_of_run all_panels rising_250)
    = Some [[]; []; [249%nat]].
Proof. split; vm_compute; reflexivity. Qed.

(** C2, as the code has it: 250 fetched rows with windows 50, 200 and 14
    and every panel on give three panels; the price panel carries the close
    and the two moving averages, each computed from the plotted closes and
    as long as them, undefined where its window is not filled; the
    oscillator panel has the six reference lines 1, 99, 15, 85, 30, 70; the
    volume panel has one bar for each row the loader kept - the rows fetched
    complete and with an RSI value - which is at most 249 rows, and, when all
    fetched values are finite, 249 less the rows before the price first
    moves.  Every series of the figure has that same number of points. *)
Theorem chart_of_250_rows (fetched : list Bar) (h : gmap nat DataFrame) :
  length fetched = 250%nat ->
  exists r ax1 ax2 ax3 close ma1 ma2 osc bars h',
    render_price all_panels fetched h = Ok (r, [ax1; ax2; ax3], h') /\
    ax_lines ax1 = [close; ma1; ma2] /\
    line_label ma1 = Some "SMA(50)"%string /\
    line_label ma2 = Some "SMA(200)"%string /\
    sma (line_y close) 50 = Ok (line_y ma1) /\
    sma (line_y close) 200 = Ok (line_y ma2) /\
    ax_lines ax2 = [osc] /\
    map hline_y (ax_hlines ax2) = [1; 99; 15; 85; 30; 70]%Z /\
    ax_bars ax3 = [bars] /\
    bars_x bars = select (kept_rows 14 fetched) (map bar_date fetched) /\
    bars_height bars = select (kept_rows 14 fetched) (map bar_volume fetched) /\
    (length (bars_height bars) <= 249)%nat /\
    length (line_y close) = length (bars_height bars) /\
    length (line_y ma1) = length (bars_height bars) /\
    length (line_y ma2) = length (bars_height bars) /\
    length (line_y osc) = length (bars_height bars) /\
    (Forall (fun b => bar_finite b = true) fetched ->
     length (bars_height bars) = (249 - still_rows (closes_of fetched))%nat).
Proof.
  intros Hlen.
  pose proof (render_price_run all_panels fetched h) as Hrun.
  cbn [all_panels rsi_periods sma_1_periods sma_2_periods] in Hrun.
  specialize (Hrun ltac:(lia) ltac:(lia) ltac:(lia)). cbv zeta in Hrun.
  eexists _, _, _, _, _, _, _, _, _, _. split; [exact Hrun|].
  cbn [price_panel rsi_panel volume_panel all_panels sma_1 sma_2 rsi_1 volume
       sma_lines sma_1_periods sma_2_periods rsi_periods app
       ax_lines ax_hlines ax_bars line_label line_y bars_x bars_height].
  set (keep := kept_rows 14 fetched).
  assert (Hrows : forall {A} (l : list A), length l = length fetched ->
            length (select keep l)
              = length (select keep (map bar_volume fetched))).
  { intros A l Hl. apply select_length_eq. by rewrite length_map. }
  repeat split; cbn [line_y bars_height]; fold keep.
  - pose proof (loaded_frame_rows 14 fetched) as H.
    unfold loaded_frame in H. cbn [df_index] in H. fold keep in H.
    rewrite (Hrows _ (map bar_date fetched)) in H by (by rewrite length_map).
    lia.
  - apply Hrows. by autorewrite with series_length.
  - autorewrite with series_length. apply Hrows. by autorewrite with series_length.
  - autorewrite with series_length. apply Hrows. by autorewrite with series_length.
  - apply Hrows. by autorewrite with series_length.
  - intros Hfin.
    destruct (kept_rsi_spec fetched 14 ltac:(lia) Hfin) as [_ Hk].
    destruct (Hk ltac:(lia)) as [Hk' _]. fold keep in Hk'.
    rewrite <- (Hrows _ (rsi_of (map bar_adj_close fetched) 14))
      by (by rewrite rsi_of_length, length_map).
    rewrite Hk', Hlen. lia.
Qed.

Lemma chart_of_250_rows_witness :
  exists r ax1 ax2 ax3 bars h',
    render_price all_panels rising_250 empty_heap = Ok (r, [ax1; ax2; ax3], h') /\
    ax_bars ax3 = [bars] /\
    (length (bars_height bars) <= 249)%nat.
Proof.
  destruct (chart_of_250_rows rising_250 empty_heap)
    as (r & ax1 & ax2 & ax3 & close & ma1 & ma2 & osc & bars & h' & Hrun & H);
    [reflexivity|].
  exists r, ax1, ax2, ax3, bars, h'. split; [exact Hrun|].
  destruct H as (_ & _ & _ & _ & _ & _ & _ & Hbars & _ & _ & Hle & _).
  split; [exact Hbars | exact Hle].
Defined.

(** ** What happens to the fetched frame *)

(** C9 as stated fails: the loader drops rows of the fetched frame in
    place.  Of three fetched rows dated 1, 2, 3 the object behind
    [price_data] keeps the rows dated 2 and 3. *)
Lemma fetched_row_removed_in_place :
  map bar_date three_bars = [1; 2; 3]%Z /\
  map bar_volume three_bars = [of_Z 10; of_Z 12; of_Z 11] /\
  option_map df_index (frame_after_load 14 three_bars) = Some [2; 3]%Z /\
  column_of "Volume" (frame_after_load 14 three_bars)
    = Some (FloatCol [of_Z 12; of_Z 11]) /\
  column_of "Date" (frame_after_load 14 three_bars) = None /\
  column_of "Date" (frame_of_run all_panels three_bars)
    = Some (DateCol [2; 3]%Z).
Proof. repeat split; vm_compute; reflexivity. Qed.

(** C9, as the code has it: a run creates one object and changes no
    other.  The loader adds the RSI column to that object and removes from
    it, in place, every row with a missing value in some column; the rows
    that stay keep their fetched values and their order.  [plot_price] then
    adds to the same object the [Date] column, a copy of the index, and
    changes nothing else of it. *)
Theorem frame_changes_of_a_run (cfg : Config) (fetched : list Bar)
    (h : gmap nat DataFrame) :
  slider_ranges cfg ->
  let p := rsi_periods cfg in
  let keep := kept_rows p fetched in
  exists price_data fig h' d,
    render_price cfg fetched h = Ok (price_data, fig, h') /\
    h !! price_data = None /\
    (forall r, r <> price_data -> h' !! r = h !! r) /\
    h' !! price_data = Some d /\
    rsi (map bar_adj_close fetched) p = Ok (rsi_of (map bar_adj_close fetched) p) /\
    length keep = length fetched /\
    df_index d = select keep (map bar_date fetched) /\
    df_columns d =
      [ ("Open"%string, FloatCol (select keep (map bar_open fetched)));
        ("High"%string, FloatCol (select keep (map bar_high fetched)));
        ("Low"%string, FloatCol (select keep (map bar_low fetched)));
        ("Close"%string, FloatCol (select keep (map bar_close fetched)));
        ("Adj Close"%string, FloatCol (select keep (map bar_adj_close fetched)));
        ("Volume"%string, FloatCol (select keep (map bar_volume fetched)));
        (rsi_column p,
         FloatCol (select keep (rsi_of (map bar_adj_close fetched) p)));
        ("Date"%string, DateCol (select keep (map bar_date fetched))) ] /\
    (exists h1,
       load_price_data p fetched h = Ok (price_data, h1) /\
       h1 !! price_data = Some (loaded_frame p fetched) /\
       plot_price cfg price_data h1 = Ok (fig, h') /\
       d = df_set "Date" (DateCol (df_index (loaded_frame p fetched)))
                  (loaded_frame p fetched)).
Proof.
  intros Hcfg p keep.
  destruct (slider_ranges_valid cfg Hcfg) as (Hp & H1 & H2).
  eexists _, _, _, _. split; [by apply render_price_run|].
  split; [apply fresh_ref_unused|].
  split; [intros r Hr; by rewrite lookup_insert_ne|].
  split; [apply lookup_insert_eq|].
  split; [by apply rsi_ok|].
  split; [apply kept_rows_length|].
  split; [reflexivity|].
  split.
  - unfold df_set, loaded_frame. cbn [df_columns df_index]. fold p keep.
    destruct (rsi_column_head p) as [rest ->]. reflexivity.
  - exists (<[fresh (dom h) := loaded_frame p fetched]> h).
    split; [by apply load_price_data_run|].
    split; [apply lookup_insert_eq|].
    split; [|reflexivity].
    erewrite plot_price_run;
      [| apply lookup_insert_eq | apply loaded_frame_chartable | done | done].
    by rewrite insert_insert_eq.
Qed.

Lemma frame_changes_of_a_run_witness :
  exists price_data fig h' d,
    render_price all_panels three_bars empty_heap = Ok (price_data, fig, h') /\
    h' !! price_data = Some d /\
    df_index d = [2; 3]%Z.
Proof.
  destruct (frame_changes_of_a_run all_panels three_bars empty_heap)
    as (r & fig & h' & d & Hrun & _ & _ & Hd & _ & _ & Hindex & _).
  { unfold slider_ranges, all_panels. simpl. lia. }
  exists r, fig, h', d. split; [exact Hrun|]. split; [exact Hd|].
  rewrite Hindex. vm_compute. reflexivity.
Defined.

(** * Further properties *)

(** ** Errors and shape of the indicators *)

Lemma rsi_raises s p : (p < 1)%Z -> rsi s p = Raise ValueError.
Proof.
  intros H. unfold rsi, rsi_ema_up, ewm_mean.
  destruct (Z.ltb_spec (p - 1) 0); [done | lia].
Qed.

(** X1: [rsi] raises [ValueError] exactly when [periods < 1]; otherwise it
    returns a column as long as its input whose first row has no value. *)
Theorem rsi_raises_or_aligned (s : Series) (periods : Z) :
  match rsi s periods with
  | Raise e => e = ValueError /\ (periods < 1)%Z
  | Ok out =>
      (1 <= periods)%Z /\ length out = length s /\
      forall x, out !! 0%nat = Some x -> x = NaN
  end.
Proof.
  destruct (Z.lt_ge_cases periods 1) as [H|H].
  - by rewrite rsi_raises.
  - rewrite rsi_ok by done. split; [done|]. split; [apply rsi_of_length|].
    intros x Hx. destruct s as [|a s]; [done|].
    destruct (rsi_of_head a s periods) as [rest Hrest].
    rewrite Hrest in Hx. simpl in Hx. congruence.
Qed.

Lemma rolling_mean_at_zero vals i : rolling_mean_at 0 0 vals i = NaN.
Proof.
  unfold rolling_mean_at, rolling_window.
  replace (S i - (S i - 0))%nat with 0%nat by lia. reflexivity.
Qed.

Lemma rolling_mean_zero_window vals k n :
  map (rolling_mean_at 0 0 vals) (seq k n) = replicate n NaN.
Proof.
  revert k. induction n as [|n IH]; intros k; [done|].
  simpl. rewrite rolling_mean_at_zero. f_equal. apply IH.
Qed.

(** X2: [sma] raises [ValueError] exactly when the window is negative;
    otherwise it returns a column as long as its input, and a window of 0
    leaves every row without value. *)
Theorem sma_raises_or_aligned (S : Series) (w : Z) :
  match sma S w with
  | Raise e => e = ValueError /\ (w < 0)%Z
  | Ok out =>
      (0 <= w)%Z /\ length out = length S /\
      (w = 0%Z -> out = replicate (length S) NaN)
  end.
Proof.
  destruct (Z.lt_ge_cases w 0) as [H|H].
  - unfold sma, rolling_mean. destruct (Z.ltb_spec w 0); [done | lia].
  - rewrite sma_ok by done. split; [done|].
    split; [by autorewrite with series_length|].
    intros ->. apply rolling_mean_zero_window.
Qed.

Lemma mean_of_one x : feq (arithmetic_mean [x]) x.
Proof.
  unfold arithmetic_mean, fsum, of_Z. destruct x as [q| | |]; simpl; try done.
  field.
Qed.

(** X3: a moving average over a window of one row is the series itself,
    read with every infinite value as a missing one - the series as it is
    when it holds no infinite value. *)
Theorem sma_window_one (S : Series) :
  exists out, sma S 1 = Ok out /\
    Forall2 feq out (prep_values S) /\
    (Forall (fun x => isinf x = false) S -> Forall2 feq out S).
Proof.
  eexists. split; [by apply sma_ok|].
  assert (Hprep : Forall2 feq
            (map (rolling_mean_at (Z.to_nat 1) (Z.to_nat 1) (prep_values S))
                 (seq 0 (length S)))
            (prep_values S)).
  { apply Forall2_same_length_lookup. split.
    - by autorewrite with series_length.
    - intros i y x Hy Hx.
      assert (Hi : (i < length (prep_values S))%nat)
        by (eapply lookup_lt_Some; eauto).
      rewrite prep_values_length in Hi.
      rewrite lookup_map, lookup_seq_lt in Hy by done. simpl in Hy.
      injection Hy as <-.
      rewrite rolling_mean_at_full
        by (rewrite ?prep_values_length; simpl; lia).
      replace (i + 1 - Z.to_nat 1)%nat with i by (simpl; lia).
      rewrite (drop_S _ _ _ Hx). simpl take. rewrite take_0.
      apply mean_of_one. }
  split; [exact Hprep|].
  intros Hfin.
  exact (eq_rect _ (fun l => Forall2 feq _ l) Hprep _ (prep_values_id S Hfin)).
Qed.

(** ** No look-ahead *)

Lemma ewm_loop_app alpha xs ys :
  forall w old, exists later,
    ewm_loop alpha w old (xs ++ ys) = ewm_loop alpha w old xs ++ later.
Proof.
  induction xs as [|cur xs IH]; intros w old; simpl; [by eexists|].
  destruct (isna w).
  { destruct (IH cur old) as [later ->]. by eexists. }
  destruct (isna cur).
  { destruct (IH w (old * (1 - alpha))) as [later ->]. by eexists. }
  match goal with |- context [ewm_loop alpha ?w' 1 (xs ++ ys)] =>
    destruct (IH w' 1) as [later ->] end.
  by eexists.
Qed.

Lemma zip_fsub_app s t :
  forall x, exists later,
    zip_with fsub (s ++ t) (x :: s ++ t) = zip_with fsub s (x :: s) ++ later.
Proof.
  induction s as [|y s IH]; intros x; simpl; [by eexists|].
  destruct (IH y) as [later ->]. by eexists.
Qed.

Lemma diff_app s t : exists later, diff (s ++ t) = diff s ++ later.
Proof.
  destruct s as [|x s]; simpl; [by eexists|].
  destruct (zip_fsub_app s t x) as [later ->]. by eexists.
Qed.

Lemma rsi_of_app s t p : exists later, rsi_of (s ++ t) p = rsi_of s p ++ later.
Proof.
  unfold rsi_of, ema_up_of, ema_down_of, rsi_up, rsi_down, rsi_delta,
    clip_lower, clip_upper, prep_values.
  destruct (diff_app s t) as [k ->]. rewrite !map_app.
  match goal with |- context [ewm_loop ?a NaN 1 (?u ++ ?ku)] =>
    destruct (ewm_loop_app a u ku NaN 1) as [lu ->] end.
  match goal with |- context [ewm_loop ?a NaN 1 (?d ++ ?kd)] =>
    destruct (ewm_loop_app a d kd NaN 1) as [ld ->] end.
  rewrite zip_with_app by (by autorewrite with series_length).
  rewrite map_app. by eexists.
Qed.

(** X4: [rsi] does not look ahead: the values it gives for a series are
    the first values it gives for any longer series that starts with it. *)
Theorem rsi_no_look_ahead (s t : Series) (periods : Z) :
  match rsi s periods, rsi (s ++ t) periods with
  | Ok out, Ok out' => take (length s) out' = out
  | Raise e, Raise e' => e = e'
  | _, _ => False
  end.
Proof.
  destruct (Z.lt_ge_cases periods 1) as [H|H].
  - by rewrite !rsi_raises.
  - rewrite !rsi_ok by done.
    destruct (rsi_of_app s t periods) as [later ->].
    apply take_app_length'. by rewrite rsi_of_length.
Qed.

Lemma rolling_window_app w s t i :
  (i < length s)%nat -> rolling_window w (s ++ t) i = rolling_window w s i.
Proof.
  intros Hi. unfold rolling_window.
  rewrite drop_app_le by lia.
  apply take_app_le. rewrite length_drop. lia.
Qed.

(** X5: [sma] does not look ahead either. *)
Theorem sma_no_look_ahead (s t : Series) (w : Z) :
  match sma s w, sma (s ++ t) w with
  | Ok out, Ok out' => take (length s) out' = out
  | Raise e, Raise e' => e = e'
  | _, _ => False
  end.
Proof.
  destruct (Z.lt_ge_cases w 0) as [H|H].
  - unfold sma, rolling_mean. destruct (Z.ltb_spec w 0); [done | lia].
  - rewrite !sma_ok by done. rewrite length_app, seq_app, map_app.
    rewrite take_app_length' by (by autorewrite with series_length).
    apply map_ext_in. intros i Hi. apply in_seq in Hi.
    unfold rolling_mean_at, prep_values. rewrite map_app.
    rewrite rolling_window_app by (rewrite length_map; lia). reflexivity.
Qed.

(** ** Series that move one way *)

Lemma spec_ewma_from_zero alpha xs :
  Forall (fun x => x == 0) xs ->
  forall prev, prev == 0 -> Forall (fun y => y == 0) (spec_ewma_from alpha prev xs).
Proof.
  induction 1 as [|x xs Hx Hxs IH]; intros prev Hprev; simpl; constructor.
  - rewrite Hx, Hprev. ring.
  - apply IH. rewrite Hx, Hprev. ring.
Qed.

Lemma spec_ewma_zero alpha xs :
  Forall (fun x => x == 0) xs -> Forall (fun y => y == 0) (spec_ewma alpha xs).
Proof.
  destruct 1 as [|x xs Hx Hxs]; simpl; constructor; [done|].
  by apply spec_ewma_from_zero.
Qed.

Lemma losses_of_rises ds :
  Forall (fun d => 0 <= d) ds -> Forall (fun x => x == 0) (map spec_loss ds).
Proof.
  induction 1 as [|d ds Hd Hds IH]; simpl; constructor; [|done].
  unfold spec_loss. qle_cases; lra.
Qed.

Lemma gains_of_falls ds :
  Forall (fun d => d <= 0) ds -> Forall (fun x => x == 0) (map spec_gain ds).
Proof.
  induction 1 as [|d ds Hd Hds IH]; simpl; constructor; [|done].
  unfold spec_gain. qle_cases; lra.
Qed.

Lemma values_without_loss G L :
  Forall (fun l => l == 0) L ->
  Forall (fun v => v = None \/ v = Some 100) (zip_with spec_oscillator_value G L).
Proof.
  intros HL. revert G. induction HL as [|l L Hl HL IH]; intros [|g G]; simpl;
    try constructor; [|apply IH].
  unfold spec_oscillator_value. apply Qeq_bool_iff in Hl. rewrite Hl.
  destruct (Qeq_bool g 0); auto.
Qed.

Lemma values_without_gain G L :
  Forall (fun g => g == 0) G ->
  Forall (fun v => v = None \/ exists q, v = Some q /\ q == 0)
         (zip_with spec_oscillator_value G L).
Proof.
  intros HG. revert L. induction HG as [|g G Hg HG IH]; intros [|l L]; simpl;
    try constructor; [|apply IH].
  unfold spec_oscillator_value.
  destruct (Qeq_bool l 0) eqn:El.
  - apply Qeq_bool_iff in Hg. rewrite Hg. by left.
  - apply Qeq_bool_neq in El. right. eexists. split; [reflexivity|].
    rewrite Hg. field. exact El.
Qed.

Lemma same_value_all (P : option Q -> Prop) (R : float64 -> Prop) xs vs :
  (forall x v, same_value x v -> P v -> R x) ->
  Forall2 same_value xs vs -> Forall P vs -> Forall R xs.
Proof.
  intros HPR H. induction H as [|x v xs vs Hx Hrest IH]; intros HP;
    [constructor|].
  inversion HP; subst. constructor; eauto.
Qed.

(** X6: on closes that never fall every value of the oscillator is 100
    where it is defined, and on closes that never rise it is 0. *)
Theorem rsi_one_way (c : list Q) (periods : Z) :
  (1 <= periods)%Z ->
  exists out,
    rsi (map Fin c) periods = Ok out /\
    (never_falls c -> Forall (fun x => x = NaN \/ feq x (of_Z 100)) out) /\
    (never_rises c -> Forall (fun x => x = NaN \/ feq x (of_Z 0)) out).
Proof.
  intros Hp. exists (rsi_of (map Fin c) periods). split; [by apply rsi_ok|].
  pose proof (rsi_of_spec c periods Hp) as Hspec.
  destruct c as [|a c]; [split; intros _; constructor|].
  split; intros Hway.
  - eapply (same_value_all (fun v => v = None \/ v = Some 100));
      [|exact Hspec|].
    + intros x v Hx [->| ->]; simpl in Hx; [by left | by right].
    + constructor; [by left|]. unfold spec_oscillator.
      apply values_without_loss, spec_ewma_zero, losses_of_rises, Hway.
  - eapply (same_value_all
                (fun v => v = None \/ exists q, v = Some q /\ q == 0));
      [|exact Hspec|].
    + intros x v Hx [->|(q & -> & Hq)]; simpl in Hx; [by left|].
      right. destruct x; simpl in *; try done. by rewrite Hx.
    + constructor; [by left|]. unfold spec_oscillator.
      apply values_without_gain, spec_ewma_zero, gains_of_falls, Hway.
Qed.

Lemma rsi_one_way_witness :
  exists out,
    rsi (map Fin [3; 5; 5; 9]) 14 = Ok out /\
    Forall (fun x => x = NaN \/ feq x (of_Z 100)) out.
Proof.
  destruct (rsi_one_way [3; 5; 5; 9] 14) as (out & Hout & Hup & _); [lia|].
  exists out. split; [exact Hout|]. apply Hup.
  unfold never_falls. vm_compute. repeat constructor; discriminate.
Defined.

(** ** The frame the loader leaves *)

Lemma select_nil_r {A} (mask : list bool) : select mask (@nil A) = [].
Proof. by destruct mask as [|[] mask]. Qed.

Lemma select_Forall {A} (P : A -> Prop) (mask : list bool) (l : list A) :
  (forall i x, mask !! i = Some true -> l !! i = Some x -> P x) ->
  Forall P (select mask l).
Proof.
  revert l. induction mask as [|b mask IH]; intros [|x l] H; simpl;
    try constructor.
  destruct b.
  - constructor; [by apply (H 0%nat)|]. apply IH. intros i y. apply (H (S i)).
  - apply IH. intros i y. apply (H (S i)).
Qed.

Lemma select_sublist {A} (mask : list bool) (l : list A) :
  select mask l `sublist_of` l.
Proof.
  revert l. induction mask as [|b mask IH]; intros [|x l]; simpl;
    try apply sublist_nil_l.
  destruct b; [by apply sublist_skip | by apply sublist_cons].
Qed.

Lemma kept_rows_lookup p fetched i :
  kept_rows p fetched !! i = Some true ->
  exists b r, fetched !! i = Some b /\ bar_complete b = true /\
    rsi_of (map bar_adj_close fetched) p !! i = Some r /\ notna r = true.
Proof.
  unfold kept_rows. intros H.
  apply lookup_zip_with_Some in H as (x & y & Hxy & Hx & Hy).
  rewrite lookup_map in Hx. rewrite lookup_map in Hy.
  destruct (fetched !! i) as [b|]; [|discriminate].
  destruct (rsi_of _ _ !! i) as [r|]; [|discriminate].
  simpl in Hx, Hy. injection Hx as <-. injection Hy as <-.
  symmetry in Hxy. apply andb_true_iff in Hxy as [Hb Hr].
  by exists b, r.
Qed.

Lemma kept_field_complete p fetched (field : Bar -> float64) :
  (forall b, bar_complete b = true -> notna (field b) = true) ->
  Forall (fun x => notna x = true) (select (kept_rows p fetched) (map field fetched)).
Proof.
  intros Hfield. apply select_Forall. intros i x Hi Hx.
  apply kept_rows_lookup in Hi as (b & r & Hb & Hc & _).
  rewrite lookup_map, Hb in Hx. injection Hx as <-. by apply Hfield.
Qed.

Lemma kept_rsi_complete p fetched :
  Forall (fun x => notna x = true)
    (select (kept_rows p fetched) (rsi_of (map bar_adj_close fetched) p)).
Proof.
  apply select_Forall. intros i x Hi Hx.
  apply kept_rows_lookup in Hi as (b & r & _ & _ & Hr & Hn). congruence.
Qed.

Ltac bar_field :=
  let b := fresh "b" in let H := fresh "H" in
  intros b H; unfold bar_complete in H;
  repeat (apply andb_true_iff in H as [H ?]); assumption.

(** X7: after [load_price_data] no value is missing anywhere in the frame,
    and every column is as long as the index. *)
Theorem loaded_frame_is_complete (periods : Z) (fetched : list Bar)
    (h : gmap nat DataFrame) :
  (1 <= periods)%Z ->
  exists data h' d,
    load_price_data periods fetched h = Ok (data, h') /\
    h' !! data = Some d /\
    Forall (fun nc => column_complete (snd nc) /\
                      column_length (snd nc) = length (df_index d))
           (df_columns d).
Proof.
  intros Hp. eexists _, _, _.
  split; [by apply load_price_data_run|]. split; [apply lookup_insert_eq|].
  unfold loaded_frame. cbn [df_columns df_index].
  repeat constructor; cbn [snd column_complete column_length];
    try (apply kept_field_complete; bar_field);
    try apply kept_rsi_complete;
    apply select_length_eq; by autorewrite with series_length.
Qed.

Lemma loaded_frame_is_complete_witness :
  exists data h' d,
    load_price_data 14 three_bars empty_heap = Ok (data, h') /\
    h' !! data = Some d /\
    Forall (fun nc => column_complete (snd nc) /\
                      column_length (snd nc) = length (df_index d))
           (df_columns d).
Proof. apply (loaded_frame_is_complete 14 three_bars empty_heap). lia. Defined.

Lemma load_price_data_raises p fetched (h : gmap nat DataFrame) :
  (p < 1)%Z -> load_price_data p fetched h = Raise ValueError.
Proof.
  intros Hp. unfold load_price_data, bind, alloc, load, lift.
  rewrite lookup_insert_eq. simpl. by rewrite rsi_raises.
Qed.

(** X8: [load_price_data] raises [ValueError] exactly when
    [rsi_periods < 1]; otherwise the rows of the frame it returns are rows
    fetched after the first, in their order: the first fetched row is never
    kept, and a fetch of one row or none leaves an empty frame. *)
Theorem loader_keeps_later_rows (periods : Z) (fetched : list Bar)
    (h : gmap nat DataFrame) :
  match load_price_data periods fetched h with
  | Raise e => e = ValueError /\ (periods < 1)%Z
  | Ok (data, h') =>
      (1 <= periods)%Z /\
      exists d, h' !! data = Some d /\
        df_index d `sublist_of` map bar_date (tail fetched) /\
        ((length fetched <= 1)%nat -> df_index d = [])
  end.
Proof.
  destruct (Z.lt_ge_cases periods 1) as [H|H].
  - by rewrite load_price_data_raises.
  - rewrite load_price_data_run by done. split; [done|].
    eexists. split; [apply lookup_insert_eq|].
    assert (Hsub : df_index (loaded_frame periods fetched)
                     `sublist_of` map bar_date (tail fetched)).
    { unfold loaded_frame. cbn [df_index].
      destruct fetched as [|b fetched];
        [change (map bar_date []) with (@nil Z); by rewrite select_nil_r|].
      destruct (kept_rows_head b fetched periods) as [rest ->].
      simpl. apply select_sublist. }
    split; [exact Hsub|].
    intros Hlen. destruct fetched as [|b [|b' fetched]]; simpl in Hlen; try lia;
      by apply sublist_nil_r in Hsub.
Qed.

(** ** Labels *)

Lemma str_of_Z_inj n m : str_of_Z n = str_of_Z m -> n = m.
Proof.
  unfold str_of_Z. intros H.
  assert (Hn : forall z, NilZero.int_of_string (NilZero.string_of_int (Z.to_int z))
                         = Some (Z.to_int z)).
  { intros z. apply NilZero.isi; destruct z; simpl; try discriminate;
      intros [= E]; by apply (DecimalPos.Unsigned.to_uint_nonnil p). }
  apply DecimalZ.to_int_inj.
  pose proof (Hn n) as E1. pose proof (Hn m) as E2.
  rewrite H in E1. congruence.
Qed.

Lemma string_length_append (s t : string) :
  String.length (s +:+ t) = (String.length s + String.length t)%nat.
Proof. induction s as [|c s IH]; simpl; [done | by rewrite IH]. Qed.

Lemma append_inj_l (s s' t : string) : (s +:+ t = s' +:+ t)%string -> s = s'.
Proof.
  intros H.
  assert (Hlen : String.length s = String.length s').
  { apply (f_equal String.length) in H.
    rewrite !string_length_append in H. lia. }
  revert s' H Hlen. induction s as [|c s IH]; intros [|c' s'] H Hlen;
    simpl in *; try done.
  injection H as -> H. f_equal. apply IH; [done | lia].
Qed.

Lemma rsi_column_inj n m : rsi_column n = rsi_column m -> n = m.
Proof.
  intros H. unfold rsi_column in H. simpl in H. injection H as H.
  change (str_of_Z n +:+ ")" = str_of_Z m +:+ ")")%string in H.
  by apply append_inj_l, str_of_Z_inj in H.
Qed.

Lemma sma_label_inj n m : sma_label n = sma_label m -> n = m.
Proof.
  intros H. unfold sma_label in H. simpl in H. injection H as H.
  change (str_of_Z n +:+ ")" = str_of_Z m +:+ ")")%string in H.
  by apply append_inj_l, str_of_Z_inj in H.
Qed.

(** X9: the names made from a window length tell the windows apart: two
    oscillator columns, or two moving-average legend entries, have the same
    name only for the same window. *)
Theorem window_labels_injective (n m : Z) :
  (rsi_column n = rsi_column m <-> n = m) /\
  (sma_label n = sma_label m <-> n = m).
Proof.
  split; (split; [|by intros ->]).
  - apply rsi_column_inj.
  - apply sma_label_inj.
Qed.

(** ** What the figure shows *)

Lemma rsi_of_in_range s p :
  (1 <= p)%Z -> Forall in_0_100_or_nan (rsi_of s p).
Proof.
  intros Hp. apply Forall_lookup_2. intros i x Hx. unfold rsi_of in Hx.
  rewrite lookup_map in Hx.
  destruct (zip_with fdiv (ema_up_of s p) (ema_down_of s p) !! i) as [r|] eqn:Hr;
    [|discriminate].
  simpl in Hx. injection Hx as <-.
  apply lookup_zip_with_Some in Hr as (g & l & -> & Hg & Hl).
  pose proof (Forall_lookup_1 _ _ _ _ (ema_up_nonneg s p Hp) Hg) as Hg0.
  pose proof (Forall_lookup_1 _ _ _ _ (ema_down_nonneg s p Hp) Hl) as Hl0.
  apply (rsi_value_cases g l Hg0 Hl0).
Qed.

Lemma kept_rsi_in_range p fetched :
  (1 <= p)%Z ->
  Forall in_0_100
    (select (kept_rows p fetched) (rsi_of (map bar_adj_close fetched) p)).
Proof.
  intros Hp. apply select_Forall. intros i x Hi Hx.
  apply kept_rows_lookup in Hi as (b & r & _ & _ & Hr & Hn).
  assert (r = x) as -> by congruence.
  pose proof (Forall_lookup_1 _ _ _ _ (rsi_of_in_range _ p Hp) Hx) as Hrange.
  by destruct x.
Qed.

(** X10: in the figure of a run every line and every bar series is drawn
    against the index of the loaded frame, one value a row, and every value
    on the oscillator panel's line is a number in [0, 100]: the oscillator
    is drawn without gaps and within its ticks. *)
Theorem chart_series_aligned (cfg : Config) (fetched : list Bar)
    (h : gmap nat DataFrame) :
  slider_ranges cfg ->
  exists price_data fig h' d,
    render_price cfg fetched h = Ok (price_data, fig, h') /\
    h' !! price_data = Some d /\
    Forall (fun ax =>
      Forall (fun l => line_x l = df_index d /\
                       length (line_y l) = length (df_index d)) (ax_lines ax) /\
      Forall (fun b => bars_x b = df_index d /\
                       length (bars_height b) = length (df_index d)) (ax_bars ax) /\
      (panel_kind ax = Some OscillatorPanel ->
       Forall (fun l => Forall in_0_100 (line_y l)) (ax_lines ax))) fig.
Proof.
  intros Hcfg. destruct (slider_ranges_valid cfg Hcfg) as (Hp & H1 & H2).
  eexists _, _, _, _. split; [by apply render_price_run|].
  split; [apply lookup_insert_eq|].
  pose proof (kept_rsi_in_range (rsi_periods cfg) fetched Hp) as Hrange.
  unfold price_figure, price_panel, rsi_panel, volume_panel, sma_lines,
    df_set, loaded_frame.
  cbn [df_index].
  destruct (sma_1 cfg), (sma_2 cfg), (rsi_1 cfg), (volume cfg);
    repeat constructor;
    cbn [line_x line_y bars_x bars_height ax_lines ax_bars];
    try done;
    try (intros; repeat constructor; cbn [line_y]; exact Hrange);
    try (autorewrite with series_length);
    apply select_length_eq; by autorewrite with series_length.
Qed.

Lemma chart_series_aligned_witness :
  exists price_data fig h' d,
    render_price all_panels three_bars empty_heap = Ok (price_data, fig, h') /\
    h' !! price_data = Some d /\
    Forall (fun ax =>
      panel_kind ax = Some OscillatorPanel ->
      Forall (fun l => Forall in_0_100 (line_y l)) (ax_lines ax)) fig.
Proof.
  destruct (chart_series_aligned all_panels three_bars empty_heap)
    as (r & fig & h' & d & Hrun & Hd & Hfig).
  { unfold slider_ranges, all_panels. simpl. lia. }
  exists r, fig, h', d. split; [exact Hrun|]. split; [exact Hd|].
  eapply Forall_impl; [exact Hfig|]. intros ax (_ & _ & H). exact H.
Defined.

(** ** Plotting again, and plotting under another window *)

Lemma df_assign_idem name col cols :
  df_assign name col (df_assign name col cols) = df_assign name col cols.
Proof.
  induction cols as [|[n c] cols IH]; simpl.
  - by rewrite String.eqb_refl.
  - destruct (String.eqb n name) eqn:E; simpl; rewrite E; [done | by rewrite IH].
Qed.

(** [plot_price] up to the oscillator panel: the [Date] column is set and
    the price panel drawn; what remains is to draw the two lower panels. *)
Lemma plot_price_upper (h : gmap nat DataFrame) cfg r d adj :
  h !! r = Some d ->
  df_floats "Adj Close" d = Ok adj ->
  length adj = length (df_index d) ->
  (0 <= sma_1_periods cfg)%Z -> (0 <= sma_2_periods cfg)%Z ->
  plot_price cfg r h =
    (rsi_axes <- plot_rsi_panel cfg r ;;
     volume_axes <- plot_volume_panel cfg r ;;
     ret (price_panel cfg (df_index d) adj :: rsi_axes ++ volume_axes))
      (<[r := df_set "Date" (DateCol (df_index d)) d]> h).
Proof.
  intros Hr Hadj Ladj H1 H2.
  set (d' := df_set "Date" (DateCol (df_index d)) d).
  set (h' := <[r := d']> h).
  assert (Hr' : h' !! r = Some d') by apply lookup_insert_eq.
  assert (Hadj' : df_floats "Adj Close" d' = Ok adj)
    by (unfold d'; rewrite df_floats_set_ne; done).
  unfold plot_price. unfold bind at 1. unfold modify. rewrite Hr. fold d' h'.
  unfold bind at 1. simpl lift.
  unfold bind at 1. unfold index_of at 1, bind at 1, load, ret. rewrite Hr'.
  unfold bind at 1. unfold floats_of at 1, bind at 1, load, lift, ret.
  rewrite Hr', Hadj'.
  unfold bind at 1. unfold ax_plot. simpl length.
  change (df_index d') with (df_index d). rewrite Ladj, Nat.eqb_refl.
  unfold bind at 1.
  erewrite (plot_sma_run h' r d'); [|done|done|done|done].
  unfold bind at 1.
  erewrite (plot_sma_run h' r d'); [|done|done|done|done].
  reflexivity.
Qed.

(** X11: plotting a second time what a run has loaded - as a rerun served
    from the cache does - leaves the frame as the first plot left it, and
    with the same settings draws the same figure. *)
Theorem replot_changes_nothing (cfg cfg' : Config) (fetched : list Bar)
    (h : gmap nat DataFrame) :
  slider_ranges cfg -> slider_ranges cfg' ->
  rsi_periods cfg' = rsi_periods cfg ->
  exists price_data fig h' fig',
    render_price cfg fetched h = Ok (price_data, fig, h') /\
    plot_price cfg' price_data h' = Ok (fig', h') /\
    (cfg' = cfg -> fig' = fig).
Proof.
  intros Hcfg Hcfg' Hsame.
  destruct (slider_ranges_valid cfg Hcfg) as (Hp & H1 & H2).
  destruct (slider_ranges_valid cfg' Hcfg') as (Hp' & H1' & H2').
  eexists _, _, _, _. split; [by apply render_price_run|].
  set (p := rsi_periods cfg). set (d := loaded_frame p fetched).
  set (d' := df_set "Date" (DateCol (df_index d)) d).
  destruct (loaded_frame_chartable p fetched)
    as (Hadj & Hrs & Hvol & Ladj & Lrs & Lvol). fold d in Hadj, Hrs, Hvol, Ladj, Lrs, Lvol.
  assert (Hchart : chartable (rsi_periods cfg') d'
            (select (kept_rows p fetched) (map bar_adj_close fetched))
            (select (kept_rows p fetched) (rsi_of (map bar_adj_close fetched) p))
            (select (kept_rows p fetched) (map bar_volume fetched))).
  { rewrite Hsame. fold p. unfold chartable, d'.
    rewrite !df_floats_set_ne by (done || apply date_is_not_rsi_column).
    done. }
  assert (Hd' : df_set "Date" (DateCol (df_index d')) d' = d').
  { unfold d', df_set. cbn [df_index df_columns]. by rewrite df_assign_idem. }
  split.
  - erewrite plot_price_run; [| apply lookup_insert_eq | exact Hchart | done | done].
    rewrite Hd', insert_insert_eq. reflexivity.
  - intros ->. reflexivity.
Qed.

Lemma replot_changes_nothing_witness :
  exists price_data fig h',
    render_price all_panels three_bars empty_heap = Ok (price_data, fig, h') /\
    plot_price all_panels price_data h' = Ok (fig, h').
Proof.
  destruct (replot_changes_nothing all_panels all_panels three_bars empty_heap)
    as (r & fig & h' & fig' & Hrun & Hplot & Hfig);
    [unfold slider_ranges, all_panels; simpl; lia
    |unfold slider_ranges, all_panels; simpl; lia
    |reflexivity|].
  exists r, fig, h'. split; [exact Hrun|]. by rewrite <- (Hfig eq_refl).
Defined.

(** X12: a frame loaded under one oscillator window and plotted under
    another has no column of the name [plot_price] asks for: with the
    oscillator panel on the plot raises [KeyError], with it off the plot
    goes through. *)
Theorem plot_under_other_window (cfg : Config) (periods : Z)
    (fetched : list Bar) (h : gmap nat DataFrame) :
  (1 <= periods)%Z -> slider_ranges cfg -> rsi_periods cfg <> periods ->
  exists data h1,
    load_price_data periods fetched h = Ok (data, h1) /\
    match plot_price cfg data h1 with
    | Raise e => e = KeyError /\ rsi_1 cfg = true
    | Ok (fig, _) =>
        rsi_1 cfg = false /\
        map panel_kind fig =
          Some PricePanel :: (if volume cfg then [Some VolumePanel] else [])
    end.
Proof.
  intros Hp Hcfg Hne.
  destruct (slider_ranges_valid cfg Hcfg) as (Hq & H1 & H2).
  eexists _, _. split; [by apply load_price_data_run|].
  set (d := loaded_frame periods fetched).
  destruct (loaded_frame_chartable periods fetched)
    as (Hadj & Hrs & Hvol & Ladj & Lrs & Lvol).
  fold d in Hadj, Hrs, Hvol, Ladj, Lrs, Lvol.
  erewrite plot_price_upper; [| apply lookup_insert_eq | exact Hadj | done | done | done].
  rewrite insert_insert_eq.
  set (d' := df_set "Date" (DateCol (df_index d)) d).
  set (h' := <[fresh (dom h) := d']> h).
  assert (Hr' : h' !! fresh (dom h) = Some d') by apply lookup_insert_eq.
  unfold bind at 1. unfold plot_rsi_panel.
  destruct (rsi_1 cfg).
  - assert (Hmiss : df_floats (rsi_column (rsi_periods cfg)) d' = Raise KeyError).
    { unfold d', d, df_floats, df_set, loaded_frame. cbn [df_columns df_index].
      destruct (rsi_column_head periods) as [rest Hrest].
      destruct (rsi_column_head (rsi_periods cfg)) as [rest' Hrest'].
      assert (Hneq : String.eqb (rsi_column periods) (rsi_column (rsi_periods cfg))
                      = false).
      { apply String.eqb_neq. intros E. apply rsi_column_inj in E. congruence. }
      rewrite Hrest, Hrest' in *. simpl in Hneq |- *. rewrite Hneq. reflexivity. }
    unfold bind, floats_of, index_of, bind, load, lift, ret. simpl.
    rewrite !Hr'. simpl. rewrite Hmiss. done.
  - unfold ret at 1. unfold bind at 1.
    erewrite (plot_volume_panel_run h' cfg);
      [| exact Hr'
       | unfold d'; rewrite df_floats_set_ne by done; exact Hvol
       | exact Lvol].
    unfold ret. split; [done|].
    unfold volume_panel. by destruct (volume cfg).
Qed.

Lemma plot_under_other_window_witness :
  exists data h1,
    load_price_data 20 three_bars empty_heap = Ok (data, h1) /\
    plot_price all_panels data h1 = Raise KeyError.
Proof.
  destruct (plot_under_other_window all_panels 20 three_bars empty_heap)
    as (data & h1 & Hload & Hplot);
    [lia | unfold slider_ranges, all_panels; simpl; lia | discriminate |].
  exists data, h1. split; [exact Hload|].
  destruct (plot_price all_panels data h1) as [[fig h2]|e].
  - destruct Hplot as [Hoff _]. discriminate Hoff.
  - destruct Hplot as [-> _]. reflexivity.
Defined.

(** ** Errors of the ownership pies *)

Lemma holder_pie_out_of_range label pct column title :
  (1 <= column <= 5)%Z -> ~ (0 <= pct <= 100) ->
  holder_pie label (Fin pct) column title = Raise ValueError.
Proof.
  intros Hc Hout. unfold holder_pie, subplot.
  destruct (Z.leb_spec 1 column) as [_|?]; [|lia].
  destruct (Z.leb_spec column column) as [_|?]; [|lia].
  destruct (Z.leb_spec column (1 * 5)) as [_|?]; [|lia].
  simpl. unfold ax_pie. simpl.
  destruct (Qcompare_spec pct (inject_Z 0)) as [H|H|H]; try reflexivity;
    (destruct (Qcompare_spec (inject_Z 100 + - pct) (inject_Z 0)) as [H'|H'|H'];
     try reflexivity); exfalso; apply Hout; unfold inject_Z in *; lra.
Qed.

(** X13: when the three entries read as finite numbers,
    [plot_major_holders] raises [ValueError] exactly when one of them lies
    outside [0, 100], its pie having a negative slice; and a first column
    with fewer than three entries, all of them numbers, makes it raise
    [KeyError]. *)
Theorem pies_raise_outside_range (major_holders : list (list string))
    (col : list string) :
  major_holders !! 0%nat = Some col ->
  (forall s0 s1 s2 p0 p1 p2,
     col !! 0%nat = Some s0 -> col !! 1%nat = Some s1 -> col !! 2%nat = Some s2 ->
     python_float (drop_last s0) = Ok (Fin p0) ->
     python_float (drop_last s1) = Ok (Fin p1) ->
     python_float (drop_last s2) = Ok (Fin p2) ->
     (plot_major_holders major_holders = Raise ValueError <->
      ~ (0 <= p0 <= 100 /\ 0 <= p1 <= 100 /\ 0 <= p2 <= 100))) /\
  ((length col < 3)%nat ->
   Forall (fun s => exists x, python_float (drop_last s) = Ok x) col ->
   plot_major_holders major_holders = Raise KeyError).
Proof.
  intros Hcol. split.
  - intros s0 s1 s2 p0 p1 p2 H0 H1 H2 F0 F1 F2.
    unfold plot_major_holders.
    rewrite (holders_cell_lookup _ _ _ _ Hcol H0),
      (holders_cell_lookup _ _ _ _ Hcol H1),
      (holders_cell_lookup _ _ _ _ Hcol H2).
    simpl. rewrite F0. simpl. rewrite F1. simpl. rewrite F2. simpl.
    assert (Hdec : forall p, 0 <= p <= 100 \/ ~ (0 <= p <= 100)).
    { intros p. destruct (Qlt_le_dec p 0), (Qlt_le_dec 100 p);
        [right | right | right | left]; lra. }
    destruct (Hdec p0) as [R0|R0].
    2:{ rewrite holder_pie_out_of_range by (done || lia). simpl.
        split; [tauto | done]. }
    rewrite (holder_pie_run s0) by (done || lia). simpl.
    destruct (Hdec p1) as [R1|R1].
    2:{ rewrite holder_pie_out_of_range by (done || lia). simpl.
        split; [tauto | done]. }
    rewrite (holder_pie_run s1) by (done || lia). simpl.
    destruct (Hdec p2) as [R2|R2].
    2:{ rewrite holder_pie_out_of_range by (done || lia). simpl.
        split; [tauto | done]. }
    rewrite (holder_pie_run s2) by (done || lia). simpl.
    split; [discriminate | tauto].
  - intros Hlen Hnum. unfold plot_major_holders, holders_cell. rewrite Hcol.
    destruct col as [|s0 col]; [reflexivity|].
    inversion Hnum as [|? ? [x0 F0] Hnum0]; subst. simpl. rewrite F0. simpl.
    destruct col as [|s1 col]; [reflexivity|].
    inversion Hnum0 as [|? ? [x1 F1] Hnum1]; subst. simpl. rewrite F1. simpl.
    destruct col as [|s2 col]; [reflexivity|]. simpl in Hlen. lia.
Qed.

Lemma pies_raise_outside_range_witness :
  plot_major_holders [["147.3%"; "20.00%"; "30%"]%string] = Raise ValueError /\
  plot_major_holders [["47.3%"; "20.00%"]%string] = Raise KeyError.
Proof.
  destruct (pies_raise_outside_range [["147.3%"; "20.00%"; "30%"]%string]
              ["147.3%"; "20.00%"; "30%"]%string eq_refl) as [Hval _].
  destruct (pies_raise_outside_range [["47.3%"; "20.00%"]%string]
              ["47.3%"; "20.00%"]%string eq_refl) as [_ Hkey].
  split.
  - apply (Hval "147.3%" "20.00%" "30%" 147.3 (2000 # 100) (30 # 1))%string;
      try reflexivity.
    intros [[_ H] _]. revert H. vm_compute. intros H. by apply H.
  - apply Hkey; [simpl; lia|].
    repeat constructor; eexists; vm_compute; reflexivity.
Defined.

(** ** Interval conversion, again *)

(** X14: [convert_interval] never gives back one of the three long forms,
    and converting twice is converting once. *)
Theorem convert_interval_idempotent (s : string) :
  convert_interval s <> "1 day"%string /\
  convert_interval s <> "1 week"%string /\
  convert_interval s <> "1 month"%string /\
  convert_interval (convert_interval s) = convert_interval s.
Proof.
  unfold convert_interval.
  destruct (String.eqb_spec s "1 day") as [->|Hd]; [by repeat split|].
  destruct (String.eqb_spec s "1 week") as [->|Hw]; [by repeat split|].
  destruct (String.eqb_spec s "1 month") as [->|Hm]; [by repeat split|].
  repeat split; try done.
  destruct (String.eqb_spec s "1 day"); [done|].
  destruct (String.eqb_spec s "1 week"); [done|].
  destruct (String.eqb_spec s "1 month"); [done|]. reflexivity.
Qed.

(** ** The ticker table *)

Lemma py_index_in_range {A} (l : list A) (i : Z) :
  let n := Z.of_nat (length l) in
  (py_index l i = None <-> ~ (- n <= i < n)%Z) /\
  ((0 <= i < n)%Z -> py_index l i = l !! Z.to_nat i) /\
  ((- n <= i < 0)%Z -> py_index l i = l !! Z.to_nat (n + i)).
Proof.
  intros n. unfold py_index. fold n.
  destruct (Z.ltb_spec i 0) as [Hi|Hi].
  - destruct (Z.leb_spec 0 (i + n)) as [H0|H0];
      destruct (Z.ltb_spec (i + n) n) as [H1|H1]; simpl; try lia.
    + replace (n + i)%Z with (i + n)%Z by lia.
      split; [|split; [lia | done]]. split; [|lia]. intros Hnone.
      apply lookup_ge_None in Hnone. lia.
    + split; [|split; [lia | lia]]. split; [lia | done].
  - destruct (Z.leb_spec 0 i) as [H0|H0]; [|lia].
    destruct (Z.ltb_spec i n) as [H1|H1]; simpl.
    + split; [|split; [done | lia]]. split; [|lia]. intros Hnone.
      apply lookup_ge_None in Hnone. lia.
    + split; [|split; [lia | lia]]. split; [lia | done].
Qed.

(** X15: [load_tickers] raises [IndexError] exactly when [num] is not an
    index of the list of tables, a negative [num] counting from the last
    table; on the table it picks it raises [KeyError] for the first of the
    columns [Company] and [Ticker symbol] that is missing, and otherwise
    returns a frame. *)
Theorem load_tickers_errors (html : list HtmlTable) (num : Z) :
  let n := Z.of_nat (length html) in
  (load_tickers html num = TickersIndexError <-> ~ (- n <= num < n)%Z) /\
  ((- n <= num < n)%Z ->
   exists table,
     html !! Z.to_nat (if (num <? 0)%Z then n + num else num)%Z = Some table /\
     match load_tickers html num with
     | Tickers rows =>
         exists company ticker,
           table !! "Company"%string = Some company /\
           table !! "Ticker symbol"%string = Some ticker /\
           rows = zip company ticker
     | TickersKeyError label =>
         (label = "Company"%string /\ table !! "Company"%string = None) \/
         (label = "Ticker symbol"%string /\
          table !! "Company"%string <> None /\
          table !! "Ticker symbol"%string = None)
     | TickersIndexError => False
     end).
Proof.
  intros n. destruct (py_index_in_range html num) as (Hnone & Hpos & Hneg).
  fold n in Hnone, Hpos, Hneg. split.
  - rewrite <- Hnone. unfold load_tickers.
    destruct (py_index html num) as [table|]; [|done].
    split; [|done].
    destruct (table !! "Company"%string);
      [destruct (table !! "Ticker symbol"%string)|]; discriminate.
  - intros Hin.
    assert (Hidx : py_index html num
              = html !! Z.to_nat (if (num <? 0)%Z then n + num else num)%Z).
    { destruct (Z.ltb_spec num 0); [apply Hneg | apply Hpos]; lia. }
    destruct (py_index html num) as [table|] eqn:E.
    2:{ exfalso. by apply (proj1 Hnone). }
    exists table. split; [done|].
    unfold load_tickers. rewrite E.
    destruct (table !! "Company"%string) as [company|] eqn:Ec; [|by left].
    destruct (table !! "Ticker symbol"%string) as [ticker|] eqn:Et.
    + by exists company, ticker.
    + right. by repeat split.
Qed.

Lemma load_tickers_errors_witness :
  exists table,
    [dax_table; table_without_symbols] !! 1%nat = Some table /\
    load_tickers [dax_table; table_without_symbols] (-1)
      = TickersKeyError "Ticker symbol".
Proof.
  destruct (load_tickers_errors [dax_table; table_without_symbols] (-1))
    as [_ H].
  destruct H as (table & Htable & Hload); [simpl; lia|].
  exists table. split; [exact Htable|].
  vm_compute. reflexivity.
Defined.

Lemma filter_label_none (rows : list (string * string)) (stock : string) :
  ~ In stock (map fst rows) ->
  List.filter (fun row => String.eqb (fst row) stock) rows = [].
Proof.
  induction rows as [|[c t] rows IH]; intros Hnot; simpl; [done|].
  destruct (String.eqb_spec c stock) as [->|Hne].
  - exfalso. apply Hnot. by left.
  - apply IH. intros Hin. apply Hnot. by right.
Qed.

Lemma filter_label_unique (rows : list (string * string)) i c t :
  List.NoDup (map fst rows) -> rows !! i = Some (c, t) ->
  List.filter (fun row => String.eqb (fst row) c) rows = [(c, t)].
Proof.
  revert i. induction rows as [|[c' t'] rows IH]; intros i Hnd Hi; [done|].
  inversion Hnd as [|? ? Hnot Hnd']; subst. simpl.
  destruct i as [|i]; simpl in Hi.
  - injection Hi as -> ->. rewrite String.eqb_refl.
    by rewrite filter_label_none.
  - destruct (String.eqb_spec c' c) as [->|Hne].
    + exfalso. apply Hnot. apply in_map_iff. exists (c, t). split; [done|].
      apply list_elem_of_In. by eapply list_elem_of_lookup_2.
    + by apply (IH i).
Qed.

Lemma filter_label_some (rows : list (string * string)) (stock : string) :
  In stock (map fst rows) ->
  List.filter (fun row => String.eqb (fst row) stock) rows <> [].
Proof.
  induction rows as [|[c t] rows IH]; intros Hin; simpl in *; [done|].
  destruct (String.eqb_spec c stock) as [->|Hne]; [done|].
  destruct Hin as [?|Hin]; [done | by apply IH].
Qed.

(** X16: the frame [load_tickers] builds has the companies as its index
    and the ticker symbols as its column, row by row; looking up a name the
    index offers never raises [KeyError], and when the company names are all
    different the lookup gives the ticker symbol of that company's row. *)
Theorem tickers_round_trip (html : list HtmlTable) (num : Z)
    (table : HtmlTable) (company ticker : list string) :
  py_index html num = Some table ->
  table !! "Company"%string = Some company ->
  table !! "Ticker symbol"%string = Some ticker ->
  length company = length ticker ->
  exists rows,
    load_tickers html num = Tickers rows /\
    tickers_index rows = company /\
    map snd rows = ticker /\
    (forall stock, In stock (tickers_index rows) ->
       ticker_of rows stock <> LabelKeyError) /\
    (List.NoDup company ->
     forall i c t, company !! i = Some c -> ticker !! i = Some t ->
       ticker_of rows c = Scalar t).
Proof.
  intros Hidx Hc Ht Hlen. exists (zip company ticker).
  assert (Hfst : map fst (zip company ticker) = company)
    by (apply fst_zip; lia).
  assert (Hsnd : map snd (zip company ticker) = ticker)
    by (apply snd_zip; lia).
  split; [unfold load_tickers; by rewrite Hidx, Hc, Ht|].
  split; [exact Hfst|]. split; [exact Hsnd|]. split.
  - intros stock Hin Hkey. unfold ticker_of in Hkey.
    pose proof (filter_label_some _ _ Hin) as Hsome.
    destruct (List.filter _ (zip company ticker)) as [|r1 [|r2 rest]];
      [done | discriminate | discriminate].
  - intros Hnd i c t Hci Hti. unfold ticker_of.
    rewrite (filter_label_unique _ i c t); [done | by rewrite Hfst |].
    apply lookup_zip_with_Some. by exists c, t.
Qed.

Lemma tickers_round_trip_witness :
  exists rows,
    load_tickers [dax_table] 0 = Tickers rows /\
    ticker_of rows "BASF" = Scalar "BAS.DE"%string.
Proof.
  destruct (tickers_round_trip [dax_table] 0 dax_table
              ["Adidas"; "BASF"]%string ["ADS.DE"; "BAS.DE"]%string)
    as (rows & Hload & _ & _ & _ & Hlookup);
    try (vm_compute; reflexivity).
  exists rows. split; [exact Hload|].
  apply (Hlookup ltac:(repeat constructor; simpl; intuition discriminate) 1%nat);
    reflexivity.
Defined.

(** ** Institutional holders *)

Lemma drop_columns_gone label (columns : list (string * list cell)) :
  ~ In label
      (map fst (List.filter (fun c => negb (String.eqb (fst c) label)) columns)).
Proof.
  intros Hin. apply in_map_iff in Hin as ([n c] & Hn & Hin).
  apply filter_In in Hin as [_ Hkeep]. simpl in *. subst n.
  by rewrite String.eqb_refl in Hkeep.
Qed.

Lemma existsb_label label (columns : list (string * list cell)) :
  existsb (fun c => String.eqb (fst c) label) columns = true
  <-> In label (map fst columns).
Proof.
  rewrite existsb_exists, in_map_iff. split.
  - intros (c & Hin & Heq). apply String.eqb_eq in Heq. by exists c.
  - intros (c & Heq & Hin). exists c. split; [done|]. by apply String.eqb_eq.
Qed.

(** X17: [load_institutional_holders] raises [AttributeError] when Yahoo
    has no holders, and [KeyError] when the frame has no [Value] column;
    otherwise it returns the frame without its [Value] column, the other
    columns as they were and in their order - so that loading again from
    the frame it returned raises [KeyError]. *)
Theorem holders_without_value
    (institutional_holders : option (list (string * list cell))) :
  match load_institutional_holders institutional_holders with
  | HoldersAttributeError => institutional_holders = None
  | HoldersKeyError label =>
      label = "Value"%string /\
      exists columns, institutional_holders = Some columns /\
        ~ In "Value"%string (map fst columns)
  | Holders kept =>
      exists columns, institutional_holders = Some columns /\
        In "Value"%string (map fst columns) /\
        ~ In "Value"%string (map fst kept) /\
        kept `sublist_of` columns /\
        (forall c, In c columns -> fst c <> "Value"%string -> In c kept) /\
        load_institutional_holders (Some kept) = HoldersKeyError "Value"
  end.
Proof.
  destruct institutional_holders as [columns|]; [|done].
  unfold load_institutional_holders, drop_columns.
  destruct (existsb _ columns) eqn:E.
  - exists columns. split; [done|].
    split; [by apply existsb_label|].
    split; [apply drop_columns_gone|].
    split; [|split].
    + clear E. induction columns as [|[n c] columns IH]; simpl;
        [apply sublist_nil_l|].
      destruct (negb (String.eqb n "Value"));
        [by apply sublist_skip | by apply sublist_cons].
    + intros c Hin Hne. apply filter_In. split; [done|].
      apply negb_true_iff. by apply String.eqb_neq.
    + destruct (existsb _ (List.filter _ columns)) eqn:E'; [|done].
      apply existsb_label in E'. by apply drop_columns_gone in E'.
  - split; [done|]. exists columns. split; [done|].
    intros Hin. apply existsb_label in Hin. congruence.
Qed.
